(** * Visitor check-in kiosk backend: the interview step, the field
      validator and the finalize handler of [src/api/main.py]

    A shallow embedding of three request handlers of the FastAPI
    application and the properties the specification states about them.

    Python values are modelled as follows.
    - [str] is a list of Unicode code points ([N]); [len] is [length].
    - [Dict[str, str]] is a [gmap str str]; [d.get(k)] is [d !! k].
    - An exception that leaves a handler is a [Raise] result. *)

From Stdlib Require Import NArith ZArith String Ascii List Lia.
From Stdlib Require Strings.Byte.
From stdpp Require Import base option list gmap.

Local Open Scope N_scope.

(** ** Python strings *)

Definition char := N.
Abbreviation str := (list N).

(** A string literal of the source (all of them are ASCII). *)
Definition py (s : string) : str := map N_of_ascii (list_ascii_of_string s).
Arguments py : simpl never.

(** Truth value of a string: [bool(s)], false for the empty string only. *)
Definition str_bool (s : str) : bool :=
  match s with
  | [] => false
  | _ :: _ => true
  end.

(** Truth value of an [Optional[str]], as in [if not state.get(field)]:
    [None] and [""] are both false. *)
Definition opt_bool (o : option str) : bool :=
  match o with
  | None => false
  | Some s => str_bool s
  end.

(** The characters [str.strip()] removes when it is called without an
    argument (CPython's [Py_UNICODE_ISSPACE]). *)
Definition Py_UNICODE_ISSPACE (c : char) : bool :=
  ((9 <=? c) && (c <=? 13)) || ((28 <=? c) && (c <=? 32))
  || (c =? 133) || (c =? 160) || (c =? 5760)
  || ((8192 <=? c) && (c <=? 8202))
  || (c =? 8232) || (c =? 8233) || (c =? 8239) || (c =? 8287) || (c =? 12288).

Fixpoint lstrip (s : str) : str :=
  match s with
  | [] => []
  | c :: s' => if Py_UNICODE_ISSPACE c then lstrip s' else s
  end.

Definition rstrip (s : str) : str := rev (lstrip (rev s)).

Definition strip (s : str) : str := rstrip (lstrip s).

Fixpoint startswith (s prefix : str) : bool :=
  match prefix, s with
  | [], _ => true
  | _ :: _, [] => false
  | p :: prefix', c :: s' => (p =? c) && startswith s' prefix'
  end.

(** [sub in s]: substring test. *)
Fixpoint str_in (sub s : str) : bool :=
  startswith s sub ||
  match s with
  | [] => false
  | _ :: s' => str_in sub s'
  end.

(** [s.split(sep)[0]] for a one-character separator: everything before
    the first occurrence of [sep], the whole string when there is none. *)
Fixpoint split_head (sep : char) (s : str) : str :=
  match s with
  | [] => []
  | c :: s' => if c =? sep then [] else c :: split_head sep s'
  end.

Definition at_sign : char := 64.

(** ** Results of a handler *)

Inductive exn : Type :=
  | ValidationError        (* pydantic: a response model rejects its arguments *)
  | HTTPException (status : Z)
  | AttributeError
  | IntegrityError.

Inductive result (A : Type) : Type :=
  | Ok (a : A)
  | Raise (e : exn).
Arguments Ok {A} a.
Arguments Raise {A} e.

(** ** POST /api/visitor/checkin-step *)

Module StepRequest.
Record t : Type := mk {
  conversation_state : gmap str str;
  user_input : str;
  input_mode : str
}.
End StepRequest.

Module StepResponse.
Record t : Type := mk {
  next_prompt : str;
  next_field : option str;
  conversation_state : gmap str str;
  is_complete : bool;
  errors : option (list str);
  advice : option str
}.
End StepResponse.

Definition expected_fields_order : list (str * str) :=
  [ (py "full_name", py "What is your full name?");
    (py "email", py "What is your email address? (You may skip)");
    (py "phone", py "And your phone number? (optional)");
    (py "id_number", py "Do you have an ID or passport number to provide? (optional)");
    (py "host_email", py "Who are you visiting today? Please provide their email.");
    (py "purpose", py "What is the purpose of your visit?") ].

Definition completion_prompt : str :=
  py "Thank you, your check-in data is almost complete. Please scan your ID, if required.".

(** [for field, prompt in fields: if not state.get(field): ...; break]:
    the first entry whose field has no non-empty answer in [state]. *)
Definition first_missing (fields : list (str * str)) (state : gmap str str)
  : option (str * str) :=
  find (fun fp => negb (opt_bool (state !! fp.1))) fields.

(** The local variables of [visitor_checkin_step] when it reaches its
    [return] statement. *)
Record step_locals : Type := mk_locals {
  l_state : gmap str str;
  l_errors : list str;
  l_next_prompt : option str;
  l_next_field : option str;
  l_is_complete : bool
}.

Definition email_errors (next_field raw_input : str) (errors : list str) : list str :=
  let errors :=
    if bool_decide (next_field = py "email") then
      if negb (str_in [at_sign] raw_input)
      then errors ++ [py "Invalid email format."] else errors
    else errors in
  if bool_decide (next_field = py "host_email") then
    if negb (str_in [at_sign] raw_input)
    then errors ++ [py "Please provide a valid email for the host."] else errors
  else errors.

Definition visitor_checkin_step_locals (payload : StepRequest.t) : step_locals :=
  let state := StepRequest.conversation_state payload in
  let errors := [] in
  let (next_prompt, next_field) :=
    match first_missing expected_fields_order state with
    | Some (field, prompt) => (Some prompt, Some field)
    | None => (None, None)
    end in
  let raw_input := strip (StepRequest.user_input payload) in
  match next_field with
  | Some nf =>
    if str_bool nf && str_bool raw_input then
      let state := <[nf := raw_input]> state in
      let errors := email_errors nf raw_input errors in
      match first_missing expected_fields_order state with
      | Some (field, prompt) =>
        mk_locals state errors (Some prompt) (Some field) false
      | None =>
        mk_locals state errors (Some completion_prompt) next_field true
      end
    else mk_locals state errors next_prompt next_field false
  | None => mk_locals state errors next_prompt next_field false
  end.

(** The constructor of the response model. [next_prompt: str] is a
    required field that is not [Optional]: pydantic rejects [None] there. *)
Definition VisitorCheckinStepResponse (next_prompt next_field : option str)
    (conversation_state : gmap str str) (is_complete : bool)
    (errors : option (list str)) : result StepResponse.t :=
  match next_prompt with
  | None => Raise ValidationError
  | Some p =>
    Ok (StepResponse.mk p next_field conversation_state is_complete errors None)
  end.

Definition visitor_checkin_step (payload : StepRequest.t) : result StepResponse.t :=
  let l := visitor_checkin_step_locals payload in
  VisitorCheckinStepResponse (l_next_prompt l) (l_next_field l) (l_state l)
    (l_is_complete l)
    (match l_errors l with [] => None | _ :: _ => Some (l_errors l) end).

(** ** POST /api/validation/validate-field *)

Module FieldValidationRequest.
Record t : Type := mk {
  field : str;
  value : str
}.
End FieldValidationRequest.

Module FieldValidationResult.
Record t : Type := mk {
  field : str;
  value : str;
  is_valid : bool;
  errors : option (list str)
}.
End FieldValidationResult.

Section Validator.

(** The digit property of the interpreter's Unicode database (the
    characters [str.isdigit] accepts); the table is not part of the
    repository and is taken as a parameter. *)
Variable Py_UNICODE_ISDIGIT : char -> bool.

(** [s.isdigit()]: at least one character and every character a digit. *)
Definition isdigit (s : str) : bool :=
  match s with
  | [] => false
  | _ :: _ => forallb Py_UNICODE_ISDIGIT s
  end.

Definition validate_field (payload : FieldValidationRequest.t)
  : FieldValidationResult.t :=
  let field := FieldValidationRequest.field payload in
  let value := FieldValidationRequest.value payload in
  let is_valid := true in
  let errors := [] in
  let (is_valid, errors) :=
    if bool_decide (field = py "email") then
      if negb (str_in [at_sign] value)
      then (false, errors ++ [py "Invalid email format."])
      else (is_valid, errors)
    else if bool_decide (field = py "phone") then
      if negb (isdigit value)
         || negb ((7 <=? length value)%nat && (length value <=? 15)%nat)
      then (false, errors ++ [py "Invalid phone number; must be 7-15 digits."])
      else (is_valid, errors)
    else if bool_decide (field = py "id_number") then
      if (length value <? 3)%nat
      then (false, errors ++ [py "ID must be at least 3 characters."])
      else (is_valid, errors)
    else (is_valid, errors) in
  FieldValidationResult.mk field value is_valid
    (match errors with [] => None | _ :: _ => Some errors end).

End Validator.

(** ** POST /api/visitor/checkin-finalize *)

(** Rows of the three tables of [models.py] the handler touches. A
    nullable column is an [option]; timestamps are clock readings. *)
Module Visitor.
Record t : Type := mk {
  id : Z;
  full_name : str;
  email : option str;
  phone : option str;
  id_number : option str;
  created_at : Z
}.
End Visitor.

Module Host.
Record t : Type := mk {
  id : Z;
  full_name : str;
  email : str;
  phone : option str;
  department : option str
}.
End Host.

Module VisitLog.
Record t : Type := mk {
  id : Z;
  visitor_id : Z;
  host_id : Z;
  purpose : option str;
  check_in_time : Z;
  check_out_time : option Z;
  status : str
}.
End VisitLog.

Module VisitLogOut.
Record t : Type := mk {
  id : Z;
  visitor : Visitor.t;
  host : Host.t;
  purpose : option str;
  check_in_time : Z;
  check_out_time : option Z;
  status : str
}.
End VisitLogOut.

(** The committed contents of the database: each table in insertion
    order, with the sequence that feeds its integer primary key. *)
Record Db : Type := mk_db {
  visitors : list Visitor.t;
  visitors_id_seq : Z;
  hosts : list Host.t;
  hosts_id_seq : Z;
  visit_logs : list VisitLog.t;
  visit_logs_id_seq : Z
}.

(** [column = :param] as [filter_by] renders it: a [None] parameter
    becomes [column IS NULL]. *)
Definition filter_eq (column param : option str) : bool :=
  bool_decide (column = param).

(** [db.query(Visitor).filter_by(full_name=.., email=..).first()] *)
Definition query_visitor (db : Db) (full_name email : option str)
  : option Visitor.t :=
  find (fun v => filter_eq (Some (Visitor.full_name v)) full_name
                 && filter_eq (Visitor.email v) email) (visitors db).

(** [db.query(Host).filter_by(email=..).first()] *)
Definition query_host (db : Db) (email : option str) : option Host.t :=
  find (fun h => filter_eq (Some (Host.email h)) email) (hosts db).

(** [db.add(Visitor(..)); db.commit(); db.refresh(visitor)]. The key is
    drawn from the sequence before the row is checked, so a row refused
    for its NULL [full_name] still uses one up. *)
Definition add_visitor (db : Db) (now : Z)
    (full_name email phone id_number : option str) : Db * result Visitor.t :=
  let new_id := (visitors_id_seq db + 1)%Z in
  match full_name with
  | None =>
    (mk_db (visitors db) new_id (hosts db) (hosts_id_seq db)
       (visit_logs db) (visit_logs_id_seq db), Raise IntegrityError)
  | Some name =>
    let v := Visitor.mk new_id name email phone id_number now in
    (mk_db (visitors db ++ [v]) new_id (hosts db) (hosts_id_seq db)
       (visit_logs db) (visit_logs_id_seq db), Ok v)
  end.

(** [db.add(Host(..)); db.commit(); db.refresh(host)] *)
Definition add_host (db : Db) (full_name email : str) : Db * Host.t :=
  let new_id := (hosts_id_seq db + 1)%Z in
  let h := Host.mk new_id full_name email None None in
  (mk_db (visitors db) (visitors_id_seq db) (hosts db ++ [h]) new_id
     (visit_logs db) (visit_logs_id_seq db), h).

(** [db.add(VisitLog(..)); db.commit(); db.refresh(visit)] *)
Definition add_visit_log (db : Db) (now : Z) (visitor_id host_id : Z)
    (purpose : option str) (status : str) : Db * VisitLog.t :=
  let new_id := (visit_logs_id_seq db + 1)%Z in
  let l := VisitLog.mk new_id visitor_id host_id purpose now None status in
  (mk_db (visitors db) (visitors_id_seq db) (hosts db) (hosts_id_seq db)
     (visit_logs db ++ [l]) new_id, l).

(** [payload.get(key)] on the JSON body; a value is a string or null. *)
Definition payload_get (payload : gmap str (option str)) (key : str) : option str :=
  match payload !! key with
  | Some v => v
  | None => None
  end.

(** The handler, as a transition of the database. [t_visitor] and
    [t_visit] are the server's clock at the two timestamped inserts. *)
Definition visitor_checkin_finalize (payload : gmap str (option str))
    (t_visitor t_visit : Z) (db : Db) : Db * result VisitLogOut.t :=
  match payload !! py "full_name" with
  | None => (db, Raise (HTTPException 400))
  | Some full_name =>
    let email := payload_get payload (py "email") in
    let phone := payload_get payload (py "phone") in
    let id_number := payload_get payload (py "id_number") in
    let purpose := payload_get payload (py "purpose") in
    let host_email := payload_get payload (py "host_email") in
    let (db, visitor) :=
      match query_visitor db full_name email with
      | Some v => (db, Ok v)
      | None => add_visitor db t_visitor full_name email phone id_number
      end in
    match visitor with
    | Raise e => (db, Raise e)
    | Ok visitor =>
      let (db, host) :=
        match query_host db host_email with
        | Some h => (db, Ok h)
        | None =>
          match host_email with
          | None => (db, Raise AttributeError)
          | Some he =>
            let (db, h) := add_host db (split_head at_sign he) he in (db, Ok h)
          end
        end in
      match host with
      | Raise e => (db, Raise e)
      | Ok host =>
        let (db, visit) :=
          add_visit_log db t_visit (Visitor.id visitor) (Host.id host)
            purpose (py "checked_in") in
        (db, Ok (VisitLogOut.mk (VisitLog.id visit) visitor host
                   (VisitLog.purpose visit) (VisitLog.check_in_time visit)
                   (VisitLog.check_out_time visit) (VisitLog.status visit)))
      end
    end
  end.

(** ** Notions the statements use *)

(** A field with no entry among the keys answered so far. *)
Definition unanswered (keys : list str) (fp : str * str) : bool :=
  negb (bool_decide (fp.1 ∈ keys)).

(** A state in which all six fields are answered. *)
Definition all_answered : gmap str str :=
  list_to_map
    [ (py "full_name", py "Alice Smith"); (py "email", py "alice@example.com");
      (py "phone", py "5551234567"); (py "id_number", py "X123");
      (py "host_email", py "bob@example.com"); (py "purpose", py "Meeting") ].

(** The state after the six answers of an interview. *)
Definition interview_state (name email phone idn host purpose : str)
  : gmap str str :=
  list_to_map
    [ (py "purpose", purpose); (py "host_email", host); (py "id_number", idn);
      (py "phone", phone); (py "email", email); (py "full_name", name) ].

(** The row belongs to the (full_name, email) pair. *)
Definition same_visitor (full_name : str) (email : option str) (v : Visitor.t)
  : Prop :=
  Visitor.full_name v = full_name /\ Visitor.email v = email.

(** The ASCII digits, a fragment of the digit table every version of the
    Unicode database has; used in examples only. *)
Definition ascii_digit (c : char) : bool := (48 <=? c) && (c <=? 57).

(** ** Measures and invariants the statements use *)

(** The field has a non-empty answer in the state. *)
Definition answered (state : gmap str str) (field : str) : Prop :=
  exists v, state !! field = Some v /\ v <> [].

(** [field], with its prompt, is the pending field of the state: the
    first field of the fixed order that is absent or empty, every field
    before it being answered. *)
Definition first_unanswered (state : gmap str str) (field prompt : str) : Prop :=
  exists before after,
    expected_fields_order = before ++ (field, prompt) :: after
    /\ Forall (fun fp => answered state fp.1) before
    /\ ~ answered state field.

(** The fields of the fixed order that still lack a non-empty answer. *)
Definition missing_fields (state : gmap str str) : list (str * str) :=
  List.filter (fun fp => negb (opt_bool (state !! fp.1))) expected_fields_order.

(** A caller's loop: each input is sent with the state the previous
    response returned; the loop stops at a failed call. *)
Fixpoint interview (mode : str) (state : gmap str str) (inputs : list str)
  : list (result StepResponse.t) :=
  match inputs with
  | [] => []
  | user_input :: rest =>
    match visitor_checkin_step (StepRequest.mk state user_input mode) with
    | Ok r => Ok r :: interview mode (StepResponse.conversation_state r) rest
    | Raise e => [Raise e]
    end
  end.

(** Every character of the string is one [strip] removes. *)
Definition all_space (s : str) : Prop :=
  Forall (fun c => Py_UNICODE_ISSPACE c = true) s.

(** The string neither starts nor ends with a character [strip] removes. *)
Definition trimmed (s : str) : Prop :=
  match s with
  | [] => True
  | c :: _ => Py_UNICODE_ISSPACE c = false
              /\ Py_UNICODE_ISSPACE (List.last s c) = false
  end.

(** [old] is still there, in place, with at most rows added behind. *)
Definition extends {A : Type} (old new : list A) : Prop :=
  exists added, new = old ++ added /\ (length added <= 1)%nat.

(** Primary keys are distinct and were drawn from the sequence. *)
Definition keys_ok (ids : list Z) (seq : Z) : Prop :=
  NoDup ids /\ Forall (fun i => (i <= seq)%Z) ids.

(** The constraints of [models.py]: primary keys, the unique host email
    and the two foreign keys of [visit_logs]. *)
Definition db_ok (db : Db) : Prop :=
  keys_ok (Visitor.id <$> visitors db) (visitors_id_seq db)
  /\ keys_ok (Host.id <$> hosts db) (hosts_id_seq db)
  /\ keys_ok (VisitLog.id <$> visit_logs db) (visit_logs_id_seq db)
  /\ NoDup (Host.email <$> hosts db)
  /\ Forall (fun l => VisitLog.visitor_id l ∈ Visitor.id <$> visitors db
                      /\ VisitLog.host_id l ∈ Host.id <$> hosts db)
       (visit_logs db).

(** The two get-or-create stages of [visitor_checkin_finalize] for a
    name and a host email that are strings. *)
Definition get_or_create_visitor (db : Db) (now : Z) (full_name : str)
    (email phone id_number : option str) : Db * Visitor.t :=
  match query_visitor db (Some full_name) email with
  | Some v => (db, v)
  | None =>
    let v := Visitor.mk (visitors_id_seq db + 1) full_name email phone id_number now in
    (mk_db (visitors db ++ [v]) (visitors_id_seq db + 1) (hosts db) (hosts_id_seq db)
       (visit_logs db) (visit_logs_id_seq db), v)
  end.

Definition get_or_create_host (db : Db) (host_email : str) : Db * Host.t :=
  match query_host db (Some host_email) with
  | Some h => (db, h)
  | None => add_host db (split_head at_sign host_email) host_email
  end.

(** ** Untyped JSON bodies *)

(** The values of a [Dict[str, Any]] body and of a handler's [dict]
    result (floating-point numbers apart). A [dict] literal is the list
    of its items in the order written. *)
Local Unset Elimination Schemes.
Inductive pyval : Type :=
  | PNone
  | PBool (b : bool)
  | PInt (z : Z)
  | PStr (s : str)
  | PList (l : list pyval)
  | PDict (d : list (str * pyval)).
Local Set Elimination Schemes.


(** An [Optional[str]] as a JSON value. *)
Definition of_opt_str (o : option str) : pyval :=
  match o with
  | None => PNone
  | Some s => PStr s
  end.

(** [key in d] and [d[key]] on a [dict] given by its items. *)
Definition dict_in (key : str) (d : list (str * pyval)) : bool :=
  bool_decide (key ∈ d.*1).

Definition dict_item (key : str) (d : list (str * pyval)) : option pyval :=
  snd <$> find (fun kv => bool_decide (kv.1 = key)) d.

(** ** POST /api/notifications/notify-host *)


(** ** The adapters of [ai_services.py] and their handlers *)

Abbreviation bytes := (list Init.Byte.byte).

(** The line boundaries of [str.splitlines]. *)
Definition is_linebreak (c : char) : bool :=
  ((10 <=? c) && (c <=? 13)) || ((28 <=? c) && (c <=? 30))
  || (c =? 133) || (c =? 8232) || (c =? 8233).

(** [s.splitlines()], with the line being read kept in reverse in
    [line]: a boundary ends the line, CR LF counts as one boundary, and
    a last line without a boundary is kept unless it is empty. *)
Fixpoint splitlines_from (line s : str) : list str :=
  match s with
  | [] => match line with [] => [] | _ :: _ => [rev line] end
  | c :: s' =>
    if is_linebreak c then
      rev line ::
        match s' with
        | d :: s'' =>
          if (c =? 13) && (d =? 10) then splitlines_from [] s''
          else splitlines_from [] s'
        | [] => splitlines_from [] s'
        end
    else splitlines_from (c :: line) s'
  end.

Definition splitlines (s : str) : list str := splitlines_from [] s.

(** [[l.strip() for l in text.splitlines() if l.strip()]] *)
Definition ocr_lines (text : str) : list str :=
  List.filter str_bool (map strip (splitlines text)).

(** The file of a multipart upload. *)
Record UploadFile : Type := mk_upload {
  filename : option str;
  content : bytes
}.

Section Adapters.

(** The optional libraries, [None] when the import failed. A call
    either raises, with the text [str(ex)] of the exception, or returns.
    - OCR: [Image.open] followed by [pytesseract.image_to_string].
    - STT: [Recognizer.record] and [recognize_google] with a language.
    - TTS: the engine run on a text, then the bytes of the file it wrote;
      [None] when any of it raises. *)
Variable pytesseract : option (bytes -> str + str).
Variable sr : option (bytes -> str -> str + str).
Variable pyttsx3 : option (str -> option bytes).

Definition perform_ocr_on_image (file_bytes : bytes) : list (str * pyval) :=
  match pytesseract with
  | None => [ (py "error", PStr (py "OCR library not installed")) ]
  | Some image_to_string =>
    match image_to_string file_bytes with
    | inr text =>
      [ (py "ocr_text", PStr text); (py "lines", PList (PStr <$> ocr_lines text)) ]
    | inl ex => [ (py "error", PStr ex) ]
    end
  end.

Definition perform_speech_to_text (audio_bytes : bytes) (language : str)
  : list (str * pyval) :=
  match sr with
  | None => [ (py "error", PStr (py "SpeechRecognition not installed")) ]
  | Some recognize =>
    match recognize audio_bytes language with
    | inr transcript =>
      [ (py "transcript", PStr transcript); (py "language", PStr language) ]
    | inl ex => [ (py "error", PStr ex) ]
    end
  end.

Definition perform_text_to_speech (text language : str) : option bytes :=
  match pyttsx3 with
  | None => None
  | Some speak => speak text
  end.

(** POST /api/ocr/upload-id *)
Definition upload_id_ocr (file : UploadFile) : list (str * pyval) :=
  let image_bytes := content file in
  let ocr_result := perform_ocr_on_image image_bytes in
  if dict_in (py "error") ocr_result then
    let ext_fields :=
      [ (py "full_name", PStr (py "Demo Person"));
        (py "id_number", PStr (py "ID123456789"));
        (py "dob", PStr (py "1990-01-01")) ] in
    [ (py "status", PStr (py "fallback")); (py "ocr_fields", PDict ext_fields);
      (py "filename", of_opt_str (filename file));
      (py "message", default PNone (dict_item (py "error") ocr_result)) ]
  else
    [ (py "status", PStr (py "success")); (py "ocr_fields", PDict ocr_result);
      (py "filename", of_opt_str (filename file)) ].

(** [language or default] *)
Definition or_default (language : option str) (default : str) : str :=
  match language with
  | Some (c :: l) => c :: l
  | _ => default
  end.

(** ["... %s)" % error] for the values the adapter stores under
    ["error"], which are strings. *)
Definition dummy_transcript (error : pyval) : pyval :=
  match error with
  | PStr e =>
    PStr (py "This is a dummy transcript of the audio (could not perform real STT: "
            ++ e ++ py ")")
  | _ => PNone
  end.

(** POST /api/speech/stt *)
Definition speech_to_text_stub (file : UploadFile) (language : option str)
  : list (str * pyval) :=
  let audio_bytes := content file in
  let stt_result :=
    perform_speech_to_text audio_bytes (or_default language (py "en-US")) in
  if dict_in (py "error") stt_result then
    let transcript :=
      dummy_transcript (default PNone (dict_item (py "error") stt_result)) in
    [ (py "transcript", transcript); (py "language", of_opt_str language);
      (py "filename", of_opt_str (filename file)) ]
  else stt_result ++ [ (py "filename", of_opt_str (filename file)) ].

(** The body the TTS handler streams when the adapter gives nothing:
    a WAV header with no samples. *)
Definition silent_wav : bytes :=
  [
    Init.Byte.x52; Init.Byte.x49; Init.Byte.x46; Init.Byte.x46;
    Init.Byte.x24; Init.Byte.x00; Init.Byte.x00; Init.Byte.x00;
    Init.Byte.x57; Init.Byte.x41; Init.Byte.x56; Init.Byte.x45;
    Init.Byte.x66; Init.Byte.x6d; Init.Byte.x74; Init.Byte.x20;
    Init.Byte.x10; Init.Byte.x00; Init.Byte.x00; Init.Byte.x00;
    Init.Byte.x01; Init.Byte.x00; Init.Byte.x01; Init.Byte.x00;
    Init.Byte.x44; Init.Byte.xac; Init.Byte.x00; Init.Byte.x00;
    Init.Byte.x88; Init.Byte.x58; Init.Byte.x01; Init.Byte.x00;
    Init.Byte.x02; Init.Byte.x00; Init.Byte.x10; Init.Byte.x00;
    Init.Byte.x64; Init.Byte.x61; Init.Byte.x74; Init.Byte.x61;
    Init.Byte.x00; Init.Byte.x00; Init.Byte.x00; Init.Byte.x00 ].

(** POST /api/speech/tts: the bytes of the streamed body. *)
Definition text_to_speech_stub (text : str) (language : option str) : bytes :=
  let wav_data := perform_text_to_speech text (or_default language (py "en")) in
  match wav_data with
  | Some (b :: data) => b :: data
  | _ => silent_wav
  end.

End Adapters.

(** A little-endian unsigned field of [width] bytes at [offset]. *)
Definition le_field (data : bytes) (offset width : nat) : N :=
  foldr (fun b acc => Strings.Byte.to_N b + 256 * acc) 0 (take width (drop offset data)).


(** * Properties *)

(** ** Strings *)

Lemma str_bool_true (s : str) : str_bool s = true <-> s <> [].
Proof. destruct s; simpl; split; congruence. Qed.

Lemma str_bool_false (s : str) : str_bool s = false <-> s = [].
Proof. destruct s; simpl; split; congruence. Qed.

Lemma startswith_nil (s : str) : startswith s [] = true.
Proof. by destruct s. Qed.

Lemma startswith_singleton (c : char) (s : str) :
  startswith s [c] = true <-> exists s', s = c :: s'.
Proof.
  destruct s as [|d s]; simpl.
  - split; [discriminate | intros [s' H]; discriminate].
  - rewrite startswith_nil, andb_true_r, N.eqb_eq. split.
    + intros ->. eauto.
    + intros [s' H]. congruence.
Qed.

(** Membership of one character, the test [c in s] of the source. *)
Lemma str_in_singleton (c : char) (s : str) :
  str_in [c] s = true <-> c ∈ s.
Proof.
  induction s as [|d s IH].
  - simpl. split; [discriminate | inversion 1].
  - change (str_in [c] (d :: s))
      with (startswith (d :: s) [c] || str_in [c] s).
    rewrite orb_true_iff, startswith_singleton, IH, elem_of_cons.
    split.
    + intros [[s' H] | H]; [left; congruence | by right].
    + intros [-> | H]; [left; eauto | by right].
Qed.

Lemma elem_of_rev (c : char) (s : str) : c ∈ rev s <-> c ∈ s.
Proof. rewrite !list_elem_of_In. symmetry. apply in_rev. Qed.

Lemma lstrip_keeps (c : char) (s : str) :
  Py_UNICODE_ISSPACE c = false -> c ∈ s -> c ∈ lstrip s.
Proof.
  intros Hc. induction s as [|d s IH]; simpl; [done|].
  intros [-> | H]%elem_of_cons.
  - rewrite Hc. apply list_elem_of_here.
  - destruct (Py_UNICODE_ISSPACE d); [by apply IH | by apply list_elem_of_further].
Qed.

Lemma lstrip_subset (c : char) (s : str) : c ∈ lstrip s -> c ∈ s.
Proof.
  induction s as [|d s IH]; simpl; [done|].
  destruct (Py_UNICODE_ISSPACE d); [|done].
  intros H. apply list_elem_of_further. by apply IH.
Qed.

Lemma strip_keeps (c : char) (s : str) :
  Py_UNICODE_ISSPACE c = false -> c ∈ s -> c ∈ strip s.
Proof.
  intros Hc H. unfold strip, rstrip.
  apply elem_of_rev, lstrip_keeps; [done|].
  apply elem_of_rev. by apply lstrip_keeps.
Qed.

Lemma strip_subset (c : char) (s : str) : c ∈ strip s -> c ∈ s.
Proof.
  unfold strip, rstrip. intros H.
  apply lstrip_subset. apply elem_of_rev.
  apply lstrip_subset. by apply elem_of_rev.
Qed.

(** What [strip] removes and what it leaves. *)
Lemma lstrip_split (s : str) :
  exists w, s = w ++ lstrip s /\ all_space w.
Proof.
  induction s as [|c s (w & Hs & Hw)]; simpl.
  - exists []. split; [done | constructor].
  - destruct (Py_UNICODE_ISSPACE c) eqn:Hc.
    + exists (c :: w). split; [by rewrite <- app_comm_cons, <- Hs|].
      by constructor.
    + exists []. split; [done | constructor].
Qed.

Lemma lstrip_head (s : str) c t :
  lstrip s = c :: t -> Py_UNICODE_ISSPACE c = false.
Proof.
  induction s as [|d s IH]; simpl; [discriminate|].
  destruct (Py_UNICODE_ISSPACE d) eqn:Hd; [done|].
  by intros [= <- _].
Qed.

Lemma all_space_rev (w : str) : all_space w -> all_space (rev w).
Proof.
  unfold all_space. rewrite !Forall_forall. intros H c Hc.
  apply H. by apply elem_of_rev.
Qed.

Lemma rstrip_split (s : str) :
  exists w, s = rstrip s ++ w /\ all_space w.
Proof.
  unfold rstrip. destruct (lstrip_split (rev s)) as (w & Hs & Hw).
  exists (rev w). split; [|by apply all_space_rev].
  rewrite <- rev_app_distr, <- Hs. symmetry. apply rev_involutive.
Qed.

Lemma rstrip_last (s : str) c :
  rstrip s <> [] -> Py_UNICODE_ISSPACE (List.last (rstrip s) c) = false.
Proof.
  unfold rstrip. destruct (lstrip (rev s)) as [|d t] eqn:Hl; [done|].
  intros _. simpl. rewrite last_last. by eapply lstrip_head.
Qed.

Lemma strip_split (s : str) :
  exists w1 w2, s = w1 ++ strip s ++ w2 /\ all_space w1 /\ all_space w2.
Proof.
  destruct (lstrip_split s) as (w1 & Hs & Hw1).
  destruct (rstrip_split (lstrip s)) as (w2 & Hl & Hw2).
  exists w1, w2. unfold strip. by rewrite <- Hl.
Qed.

Lemma strip_trimmed (s : str) : trimmed (strip s).
Proof.
  unfold trimmed. destruct (strip s) as [|c t] eqn:Hst; [done|].
  split.
  - unfold strip in Hst.
    destruct (rstrip_split (lstrip s)) as (w & Hl & _).
    rewrite Hst in Hl. simpl in Hl. by eapply lstrip_head.
  - rewrite <- Hst. unfold strip. apply rstrip_last.
    fold (strip s). by rewrite Hst.
Qed.

Lemma strip_nil_iff (s : str) : strip s = [] <-> all_space s.
Proof.
  split.
  - intros Hs. destruct (strip_split s) as (w1 & w2 & H & H1 & H2).
    rewrite Hs in H. rewrite H. unfold all_space. by apply Forall_app.
  - intros Hall. destruct (strip s) as [|c t] eqn:Hst; [done|].
    pose proof (strip_trimmed s) as Ht. rewrite Hst in Ht. destruct Ht as [Hc _].
    assert (c ∈ s) as Hin.
    { apply strip_subset. rewrite Hst. apply list_elem_of_here. }
    unfold all_space in Hall. rewrite Forall_forall in Hall.
    specialize (Hall c Hin). congruence.
Qed.

Example strip_both_ends : strip (py "  Alice Smith " ++ [10]) = py "Alice Smith".
Proof. reflexivity. Qed.

Example strip_blank : strip [32; 9; 160; 8195] = [].
Proof. reflexivity. Qed.

Example split_head_local_part :
  split_head at_sign (py "bob@example.com") = py "bob".
Proof. reflexivity. Qed.

(** ** The scan for the pending field *)

Lemma first_missing_Some (fields : list (str * str)) (state : gmap str str) f p :
  first_missing fields state = Some (f, p) <->
  exists pre post,
    fields = pre ++ (f, p) :: post
    /\ Forall (fun fp => opt_bool (state !! fp.1) = true) pre
    /\ opt_bool (state !! f) = false.
Proof.
  unfold first_missing. induction fields as [|[g q] fields IH]; simpl.
  - split; [discriminate|]. intros (pre & post & H & _). by destruct pre.
  - destruct (opt_bool (state !! g)) eqn:Hg; simpl.
    + rewrite IH. split.
      * intros (pre & post & -> & Hpre & Hf).
        exists ((g, q) :: pre), post. split; [done|]. split; [|done].
        by constructor.
      * intros (pre & post & H & Hpre & Hf).
        destruct pre as [|[g' q'] pre]; simpl in H.
        -- injection H as -> -> ->. congruence.
        -- injection H as -> -> ->. exists pre, post.
           split; [done|]. split; [|done]. by inversion Hpre.
    + split.
      * intros [= -> ->]. exists [], fields. by repeat split.
      * intros (pre & post & H & Hpre & Hf).
        destruct pre as [|[g' q'] pre]; simpl in H.
        -- by injection H as -> -> ->.
        -- injection H as -> -> ->. inversion Hpre; simpl in *; congruence.
Qed.

Lemma first_missing_None (fields : list (str * str)) (state : gmap str str) :
  first_missing fields state = None <->
  Forall (fun fp => opt_bool (state !! fp.1) = true) fields.
Proof.
  unfold first_missing. induction fields as [|[g q] fields IH]; simpl.
  - split; [constructor | done].
  - destruct (opt_bool (state !! g)) eqn:Hg; simpl.
    + rewrite IH. split; [by constructor | by inversion 1].
    + split; [discriminate|]. inversion 1; simpl in *; congruence.
Qed.

Lemma first_missing_elem (fields : list (str * str)) (state : gmap str str) f p :
  first_missing fields state = Some (f, p) -> (f, p) ∈ fields.
Proof.
  intros (pre & post & -> & _)%first_missing_Some.
  apply elem_of_app. right. apply list_elem_of_here.
Qed.

Lemma answered_iff (state : gmap str str) (field : str) :
  answered state field <-> opt_bool (state !! field) = true.
Proof.
  unfold answered. destruct (state !! field) as [v|]; simpl.
  - rewrite str_bool_true. split; [by intros (? & [= <-] & ?) | eauto].
  - split; [by intros (? & ? & _) | discriminate].
Qed.

Lemma not_answered_iff (state : gmap str str) (field : str) :
  ~ answered state field <-> opt_bool (state !! field) = false.
Proof. rewrite answered_iff. by destruct (opt_bool (state !! field)). Qed.

(** The handler's scan finds the pending field. *)
Lemma first_unanswered_iff (state : gmap str str) (field prompt : str) :
  first_unanswered state field prompt
  <-> first_missing expected_fields_order state = Some (field, prompt).
Proof.
  rewrite first_missing_Some. unfold first_unanswered.
  split; intros (pre & post & Hsplit & Hpre & Hun); exists pre, post;
    (split; [done|]); (split; [|by apply not_answered_iff]);
    (eapply Forall_impl; [exact Hpre|]); intros fp Hfp; by apply answered_iff.
Qed.

Lemma expected_field_cases f p :
  (f, p) ∈ expected_fields_order ->
  f = py "full_name" \/ f = py "email" \/ f = py "phone"
  \/ f = py "id_number" \/ f = py "host_email" \/ f = py "purpose".
Proof.
  unfold expected_fields_order.
  rewrite !elem_of_cons, elem_of_nil.
  intros [H|[H|[H|[H|[H|[H|[]]]]]]]; injection H as -> _; tauto.
Qed.

Lemma expected_field_nonempty f p :
  (f, p) ∈ expected_fields_order -> str_bool f = true.
Proof.
  intros H. destruct (expected_field_cases _ _ H) as [->|[->|[->|[->|[->| ->]]]]];
    reflexivity.
Qed.

(** ** The three ways through [visitor_checkin_step] *)

Lemma step_locals_done payload :
  first_missing expected_fields_order (StepRequest.conversation_state payload) = None ->
  visitor_checkin_step_locals payload
  = mk_locals (StepRequest.conversation_state payload) [] None None false.
Proof. intros H. unfold visitor_checkin_step_locals. by rewrite H. Qed.

Lemma step_locals_no_input payload f p :
  first_missing expected_fields_order (StepRequest.conversation_state payload)
    = Some (f, p) ->
  strip (StepRequest.user_input payload) = [] ->
  visitor_checkin_step_locals payload
  = mk_locals (StepRequest.conversation_state payload) [] (Some p) (Some f) false.
Proof.
  intros H Hraw. unfold visitor_checkin_step_locals. rewrite H, Hraw. simpl.
  by rewrite andb_false_r.
Qed.

Lemma step_locals_assign payload f p :
  first_missing expected_fields_order (StepRequest.conversation_state payload)
    = Some (f, p) ->
  strip (StepRequest.user_input payload) <> [] ->
  let raw_input := strip (StepRequest.user_input payload) in
  let state := <[f := raw_input]> (StepRequest.conversation_state payload) in
  visitor_checkin_step_locals payload
  = match first_missing expected_fields_order state with
    | Some (field, prompt) =>
      mk_locals state (email_errors f raw_input []) (Some prompt) (Some field) false
    | None =>
      mk_locals state (email_errors f raw_input []) (Some completion_prompt) (Some f) true
    end.
Proof.
  intros H Hraw. simpl. unfold visitor_checkin_step_locals. rewrite H.
  rewrite (expected_field_nonempty f p) by (by eapply first_missing_elem).
  apply str_bool_true in Hraw. by rewrite Hraw.
Qed.

(** A handler call that assigns always builds a valid response. *)
Lemma step_assign_ok st inp mode f p :
  first_missing expected_fields_order st = Some (f, p) ->
  strip inp <> [] ->
  exists r,
    visitor_checkin_step (StepRequest.mk st inp mode) = Ok r
    /\ StepResponse.conversation_state r = <[f := strip inp]> st
    /\ StepResponse.errors r
       = match email_errors f (strip inp) [] with
         | [] => None
         | e :: es => Some (e :: es)
         end
    /\ match first_missing expected_fields_order (<[f := strip inp]> st) with
       | Some (field, prompt) =>
         StepResponse.next_field r = Some field
         /\ StepResponse.next_prompt r = prompt
         /\ StepResponse.is_complete r = false
       | None =>
         StepResponse.next_field r = Some f
         /\ StepResponse.next_prompt r = completion_prompt
         /\ StepResponse.is_complete r = true
       end.
Proof.
  intros Hf Hraw. unfold visitor_checkin_step.
  rewrite (step_locals_assign (StepRequest.mk st inp mode) f p Hf Hraw).
  cbn [StepRequest.conversation_state StepRequest.user_input].
  destruct (first_missing expected_fields_order (<[f:=strip inp]> st))
    as [[field prompt]|]; cbn;
    (eexists; split; [reflexivity|]); cbn;
    destruct (email_errors f (strip inp) []); auto.
Qed.

(** With no field pending the handler has no prompt to return and the
    response model refuses the [None]. *)
Lemma step_done_raises st inp mode :
  first_missing expected_fields_order st = None ->
  visitor_checkin_step (StepRequest.mk st inp mode) = Raise ValidationError.
Proof.
  intros H. unfold visitor_checkin_step.
  by rewrite (step_locals_done (StepRequest.mk st inp mode) H).
Qed.

Lemma step_no_input_ok st inp mode f p :
  first_missing expected_fields_order st = Some (f, p) ->
  strip inp = [] ->
  visitor_checkin_step (StepRequest.mk st inp mode)
  = Ok (StepResponse.mk p (Some f) st false None None).
Proof.
  intros H Hraw. unfold visitor_checkin_step.
  by rewrite (step_locals_no_input (StepRequest.mk st inp mode) f p H Hraw).
Qed.

Lemma email_errors_with_at f raw :
  at_sign ∈ raw -> email_errors f raw [] = [].
Proof.
  intros H%str_in_singleton. unfold email_errors. rewrite H. simpl.
  by repeat case_bool_decide.
Qed.

Lemma email_errors_other f raw :
  f <> py "email" -> f <> py "host_email" -> email_errors f raw [] = [].
Proof.
  intros H1 H2. unfold email_errors.
  by rewrite !bool_decide_eq_false_2.
Qed.

(** ** States built from a list of answers *)

Lemma opt_bool_list_to_map (kvs : list (str * str)) (g : str) :
  Forall (fun kv => kv.2 <> []) kvs ->
  opt_bool ((list_to_map kvs : gmap str str) !! g) = bool_decide (g ∈ kvs.*1).
Proof.
  induction 1 as [|[k v] kvs Hv _ IH].
  - rewrite list_to_map_nil, lookup_empty, fmap_nil. symmetry.
    apply bool_decide_eq_false_2, not_elem_of_nil.
  - rewrite list_to_map_cons, fmap_cons, lookup_insert.
    destruct (decide (k = g)) as [Hk|Hk].
    + subst g. cbn [snd] in Hv. apply str_bool_true in Hv.
      cbn [opt_bool fst]. rewrite Hv.
      symmetry. apply bool_decide_eq_true_2, list_elem_of_here.
    + rewrite IH. apply bool_decide_ext. rewrite elem_of_cons. cbn [fst].
      split; [by right | intros [?|?]; [congruence | done]].
Qed.

Lemma first_missing_list_to_map fields (kvs : list (str * str)) :
  Forall (fun kv => kv.2 <> []) kvs ->
  first_missing fields (list_to_map kvs) = find (unanswered kvs.*1) fields.
Proof.
  intros H. unfold first_missing, unanswered.
  induction fields as [|fp fields IH]; simpl; [done|].
  by rewrite IH, (opt_bool_list_to_map kvs _ H).
Qed.

(** The step from a state given as a list of non-empty answers. *)
Lemma step_answers (kvs : list (str * str)) inp mode f p :
  Forall (fun kv => kv.2 <> []) kvs ->
  strip inp <> [] ->
  find (unanswered kvs.*1) expected_fields_order = Some (f, p) ->
  visitor_checkin_step (StepRequest.mk (list_to_map kvs) inp mode)
  = Ok (let state := list_to_map ((f, strip inp) :: kvs) in
        let errors :=
          match email_errors f (strip inp) [] with
          | [] => None
          | e :: es => Some (e :: es)
          end in
        match find (unanswered (f :: kvs.*1)) expected_fields_order with
        | Some (field, prompt) =>
          StepResponse.mk prompt (Some field) state false errors None
        | None =>
          StepResponse.mk completion_prompt (Some f) state true errors None
        end).
Proof.
  intros Hkvs Hraw Hf.
  rewrite <- (first_missing_list_to_map _ kvs Hkvs) in Hf.
  unfold visitor_checkin_step.
  rewrite (step_locals_assign (StepRequest.mk (list_to_map kvs) inp mode) f p Hf Hraw).
  cbn [StepRequest.conversation_state StepRequest.user_input]. cbn zeta.
  change (<[f:=strip inp]> (list_to_map kvs : gmap str str))
    with (list_to_map ((f, strip inp) :: kvs) : gmap str str).
  rewrite (first_missing_list_to_map _ ((f, strip inp) :: kvs))
    by (constructor; done).
  change (((f, strip inp) :: kvs).*1) with (f :: kvs.*1).
  destruct (find (unanswered (f :: kvs.*1)) expected_fields_order) as [[g q]|];
    cbn; by destruct (email_errors f (strip inp) []).
Qed.

(** ** Claims about the interview step *)

(** C1 (the code departs from it): with all six fields already answered
    the handler reaches its [return] with [is_complete] still false and
    no prompt, whatever the input, and building the response raises: no
    response with [is_complete = true] and the completion prompt comes
    back. *)
Theorem step_all_answered_raises (st : gmap str str) (inp mode : str) :
  Forall (fun fp => opt_bool (st !! fp.1) = true) expected_fields_order ->
  let payload := StepRequest.mk st inp mode in
  l_is_complete (visitor_checkin_step_locals payload) = false
  /\ l_next_prompt (visitor_checkin_step_locals payload) = None
  /\ visitor_checkin_step payload = Raise ValidationError
  /\ ~ exists r,
        visitor_checkin_step payload = Ok r
        /\ StepResponse.is_complete r = true
        /\ StepResponse.next_prompt r = completion_prompt.
Proof.
  intros Hall%first_missing_None. cbv zeta.
  rewrite (step_locals_done (StepRequest.mk st inp mode) Hall).
  rewrite (step_done_raises st inp mode Hall).
  repeat split. by intros (r & Hr & _).
Qed.

Lemma step_all_answered_raises_witness :
  Forall (fun fp => opt_bool (all_answered !! fp.1) = true) expected_fields_order
  /\ visitor_checkin_step (StepRequest.mk all_answered [] (py "text"))
     = Raise ValidationError
  /\ visitor_checkin_step (StepRequest.mk all_answered (py "ok") (py "text"))
     = Raise ValidationError.
Proof.
  assert (Forall (fun fp => opt_bool (all_answered !! fp.1) = true)
            expected_fields_order) as Hall
    by (repeat constructor).
  split; [exact Hall|]. split.
  - exact (proj1 (proj2 (proj2
      (step_all_answered_raises all_answered [] (py "text") Hall)))).
  - exact (proj1 (proj2 (proj2
      (step_all_answered_raises all_answered (py "ok") (py "text") Hall)))).
Defined.

(** C3: from the empty state, an input that is not blank is stored
    under [full_name] trimmed: the stored value is not empty, neither
    begins nor ends with whitespace, and the input is that value between
    two runs of whitespace. The response asks for [email] with the
    prompt of that field. *)
Theorem step_empty_state_takes_full_name (inp mode : str) :
  ~ all_space inp ->
  exists r v w1 w2,
    visitor_checkin_step (StepRequest.mk ∅ inp mode) = Ok r
    /\ inp = w1 ++ v ++ w2 /\ all_space w1 /\ all_space w2
    /\ v <> [] /\ trimmed v /\ v = strip inp
    /\ StepResponse.conversation_state r = {[ py "full_name" := v ]}
    /\ StepResponse.conversation_state r !! py "full_name" = Some v
    /\ StepResponse.next_field r = Some (py "email")
    /\ StepResponse.next_prompt r = py "What is your email address? (You may skip)"
    /\ (py "email", StepResponse.next_prompt r) ∈ expected_fields_order.
Proof.
  intros Hraw. rewrite <- strip_nil_iff in Hraw.
  pose proof (step_answers [] inp mode (py "full_name")
                (py "What is your full name?") (Forall_nil_2 _) Hraw eq_refl) as H.
  change (list_to_map [] : gmap str str) with (∅ : gmap str str) in H.
  rewrite email_errors_other in H by discriminate.
  change (find _ _) with (Some (py "email", py "What is your email address? (You may skip)")) in H.
  cbn zeta iota beta in H.
  destruct (strip_split inp) as (w1 & w2 & Hsplit & Hw1 & Hw2).
  eexists _, (strip inp), w1, w2. split; [exact H|].
  do 3 (split; [done|]). split; [done|]. split; [apply strip_trimmed|].
  split; [done|].
  cbn [StepResponse.conversation_state StepResponse.next_field
       StepResponse.next_prompt].
  change (list_to_map [(py "full_name", strip inp)] : gmap str str)
    with ({[ py "full_name" := strip inp ]} : gmap str str).
  rewrite lookup_singleton_eq. repeat split.
  unfold expected_fields_order. rewrite !elem_of_cons. auto.
Qed.

Lemma step_empty_state_takes_full_name_witness :
  let inp := [9; 32] ++ py "Alice Smith" ++ [32; 10] in
  ~ all_space inp
  /\ visitor_checkin_step (StepRequest.mk ∅ inp (py "text"))
     = Ok (StepResponse.mk (py "What is your email address? (You may skip)")
             (Some (py "email")) {[ py "full_name" := py "Alice Smith" ]}
             false None None)
  /\ exists r v w1 w2,
      visitor_checkin_step (StepRequest.mk ∅ inp (py "text")) = Ok r
      /\ inp = w1 ++ v ++ w2 /\ all_space w1 /\ all_space w2
      /\ v <> [] /\ trimmed v /\ v = strip inp
      /\ StepResponse.conversation_state r = {[ py "full_name" := v ]}
      /\ StepResponse.conversation_state r !! py "full_name" = Some v
      /\ StepResponse.next_field r = Some (py "email")
      /\ StepResponse.next_prompt r = py "What is your email address? (You may skip)"
      /\ (py "email", StepResponse.next_prompt r) ∈ expected_fields_order.
Proof.
  cbv zeta.
  assert (~ all_space ([9; 32] ++ py "Alice Smith" ++ [32; 10])) as H
    by (rewrite <- strip_nil_iff; discriminate).
  split; [exact H|]. split; [vm_compute; reflexivity|].
  exact (step_empty_state_takes_full_name _ (py "text") H).
Defined.

(** C4: when [email] (respectively [host_email]) is the pending field,
    an input that is not blank and has no '@' is stored under that field
    trimmed (the stored value is not empty, neither begins nor ends with
    whitespace, and the input is that value between two runs of
    whitespace), and the response carries the validation error of that
    field: the value is kept, not refused. *)
Theorem step_keeps_invalid_email (st : gmap str str) (inp mode p : str) :
  ~ all_space inp ->
  at_sign ∉ inp ->
  (first_unanswered st (py "email") p ->
   exists r v w1 w2,
     visitor_checkin_step (StepRequest.mk st inp mode) = Ok r
     /\ inp = w1 ++ v ++ w2 /\ all_space w1 /\ all_space w2
     /\ v <> [] /\ trimmed v /\ v = strip inp
     /\ StepResponse.conversation_state r = <[py "email" := v]> st
     /\ StepResponse.conversation_state r !! py "email" = Some v
     /\ StepResponse.errors r = Some [py "Invalid email format."])
  /\ (first_unanswered st (py "host_email") p ->
      exists r v w1 w2,
        visitor_checkin_step (StepRequest.mk st inp mode) = Ok r
        /\ inp = w1 ++ v ++ w2 /\ all_space w1 /\ all_space w2
        /\ v <> [] /\ trimmed v /\ v = strip inp
        /\ StepResponse.conversation_state r = <[py "host_email" := v]> st
        /\ StepResponse.conversation_state r !! py "host_email" = Some v
        /\ StepResponse.errors r
           = Some [py "Please provide a valid email for the host."]).
Proof.
  intros Hraw Hat. rewrite <- strip_nil_iff in Hraw.
  assert (str_in [at_sign] (strip inp) = false) as Hno.
  { apply not_true_is_false. rewrite str_in_singleton.
    intros H. by apply Hat, strip_subset. }
  destruct (strip_split inp) as (w1 & w2 & Hsplit & Hw1 & Hw2).
  pose proof (strip_trimmed inp) as Htrim.
  split; intros Hf%first_unanswered_iff;
    destruct (step_assign_ok st inp mode _ p Hf Hraw) as (r & Hr & Hst & Herr & _);
    exists r, (strip inp), w1, w2; (split; [exact Hr|]);
    do 6 (split; [done|]); (split; [exact Hst|]);
    (split; [rewrite Hst; apply lookup_insert_eq|]);
    rewrite Herr; unfold email_errors; rewrite Hno; reflexivity.
Qed.

Lemma step_keeps_invalid_email_witness :
  let inp := [32; 9] ++ py "not-an-email" ++ [160; 32] in
  let st1 : gmap str str := {[ py "full_name" := py "Alice Smith" ]} in
  let st2 : gmap str str :=
    list_to_map
      [ (py "full_name", py "Alice Smith"); (py "email", py "alice@example.com");
        (py "phone", py "5551234567"); (py "id_number", py "X123") ] in
  let p1 := py "What is your email address? (You may skip)" in
  let p2 := py "Who are you visiting today? Please provide their email." in
  (~ all_space inp /\ at_sign ∉ inp)
  /\ first_unanswered st1 (py "email") p1
  /\ first_unanswered st2 (py "host_email") p2
  /\ visitor_checkin_step (StepRequest.mk st1 inp (py "text"))
     = Ok (StepResponse.mk (py "And your phone number? (optional)")
             (Some (py "phone")) (<[py "email" := py "not-an-email"]> st1) false
             (Some [py "Invalid email format."]) None)
  /\ visitor_checkin_step (StepRequest.mk st2 inp (py "voice"))
     = Ok (StepResponse.mk (py "What is the purpose of your visit?")
             (Some (py "purpose")) (<[py "host_email" := py "not-an-email"]> st2)
             false (Some [py "Please provide a valid email for the host."]) None)
  /\ (exists r v w1 w2,
        visitor_checkin_step (StepRequest.mk st1 inp (py "text")) = Ok r
        /\ inp = w1 ++ v ++ w2 /\ all_space w1 /\ all_space w2
        /\ v <> [] /\ trimmed v /\ v = strip inp
        /\ StepResponse.conversation_state r = <[py "email" := v]> st1
        /\ StepResponse.conversation_state r !! py "email" = Some v
        /\ StepResponse.errors r = Some [py "Invalid email format."])
  /\ (exists r v w1 w2,
        visitor_checkin_step (StepRequest.mk st2 inp (py "voice")) = Ok r
        /\ inp = w1 ++ v ++ w2 /\ all_space w1 /\ all_space w2
        /\ v <> [] /\ trimmed v /\ v = strip inp
        /\ StepResponse.conversation_state r = <[py "host_email" := v]> st2
        /\ StepResponse.conversation_state r !! py "host_email" = Some v
        /\ StepResponse.errors r
           = Some [py "Please provide a valid email for the host."]).
Proof.
  cbv zeta.
  assert (~ all_space ([32; 9] ++ py "not-an-email" ++ [160; 32])) as H1
    by (rewrite <- strip_nil_iff; discriminate).
  assert (at_sign ∉ [32; 9] ++ py "not-an-email" ++ [160; 32]) as H2.
  { rewrite <- str_in_singleton. vm_compute. discriminate. }
  assert (first_unanswered {[ py "full_name" := py "Alice Smith" ]} (py "email")
            (py "What is your email address? (You may skip)")) as F1
    by (apply first_unanswered_iff; vm_compute; reflexivity).
  assert (first_unanswered
            (list_to_map
               [ (py "full_name", py "Alice Smith");
                 (py "email", py "alice@example.com");
                 (py "phone", py "5551234567"); (py "id_number", py "X123") ])
            (py "host_email")
            (py "Who are you visiting today? Please provide their email.")) as F2
    by (apply first_unanswered_iff; vm_compute; reflexivity).
  split; [by split|].
  split; [exact F1|]. split; [exact F2|].
  split; [vm_compute; reflexivity|].
  split; [vm_compute; reflexivity|].
  split.
  - exact (proj1 (step_keeps_invalid_email _ _ (py "text") _ H1 H2) F1).
  - exact (proj2 (step_keeps_invalid_email _ _ (py "voice") _ H1 H2) F2).
Defined.

(** C7: with some field still unanswered and a blank input, the
    response names the pending field of the input state (the first
    field of the fixed order that is absent or empty) with its prompt,
    returns the state as it came, is not complete and has no errors. *)
Theorem step_empty_input_unchanged (st : gmap str str) (inp mode : str) :
  (exists f p, (f, p) ∈ expected_fields_order /\ ~ answered st f) ->
  all_space inp ->
  exists f p,
    first_unanswered st f p
    /\ first_missing expected_fields_order st = Some (f, p)
    /\ visitor_checkin_step (StepRequest.mk st inp mode)
       = Ok (StepResponse.mk p (Some f) st false None None).
Proof.
  intros (f0 & p0 & Hin & Hun) Hraw%strip_nil_iff.
  destruct (first_missing expected_fields_order st) as [[f p]|] eqn:Hf.
  - exists f, p. split; [by apply first_unanswered_iff|]. split; [done|].
    by apply step_no_input_ok.
  - apply first_missing_None in Hf. rewrite Forall_forall in Hf.
    specialize (Hf _ Hin). by apply not_answered_iff in Hun; simpl in *; congruence.
Qed.

Lemma step_empty_input_unchanged_witness :
  let st : gmap str str :=
    list_to_map [ (py "full_name", py "Alice Smith"); (py "email", []);
                  (py "phone", py "5551234567") ] in
  let inp := [32; 9; 10] in
  (exists f p, (f, p) ∈ expected_fields_order /\ ~ answered st f)
  /\ all_space inp
  /\ visitor_checkin_step (StepRequest.mk st inp (py "text"))
     = Ok (StepResponse.mk (py "What is your email address? (You may skip)")
             (Some (py "email")) st false None None)
  /\ exists f p,
      first_unanswered st f p
      /\ first_missing expected_fields_order st = Some (f, p)
      /\ visitor_checkin_step (StepRequest.mk st inp (py "text"))
         = Ok (StepResponse.mk p (Some f) st false None None).
Proof.
  cbv zeta.
  set (st := list_to_map [ (py "full_name", py "Alice Smith"); (py "email", []);
                           (py "phone", py "5551234567") ] : gmap str str).
  assert (exists f p, (f, p) ∈ expected_fields_order /\ ~ answered st f) as H1.
  { exists (py "purpose"), (py "What is the purpose of your visit?").
    split; [|by apply not_answered_iff].
    unfold expected_fields_order. rewrite !elem_of_cons. tauto. }
  assert (all_space [32; 9; 10]) as H2 by (by repeat constructor).
  split; [exact H1|]. split; [exact H2|].
  split; [vm_compute; reflexivity|].
  exact (step_empty_input_unchanged st [32; 9; 10] (py "text") H1 H2).
Defined.

(** C8: with an input that is empty once trimmed, two calls with the same
    request have the same outcome, field by field when it is a response;
    the response returns the state as it came, so a caller that sends the
    returned state back with the same input receives that response again. *)
Theorem step_empty_input_idempotent (st : gmap str str) (inp mode : str) :
  strip inp = [] ->
  (forall out1 out2,
     out1 = visitor_checkin_step (StepRequest.mk st inp mode) ->
     out2 = visitor_checkin_step (StepRequest.mk st inp mode) ->
     out1 = out2
     /\ forall r1 r2, out1 = Ok r1 -> out2 = Ok r2 ->
        StepResponse.next_prompt r1 = StepResponse.next_prompt r2
        /\ StepResponse.next_field r1 = StepResponse.next_field r2
        /\ StepResponse.conversation_state r1 = StepResponse.conversation_state r2
        /\ StepResponse.is_complete r1 = StepResponse.is_complete r2
        /\ StepResponse.errors r1 = StepResponse.errors r2)
  /\ (forall r,
        visitor_checkin_step (StepRequest.mk st inp mode) = Ok r ->
        StepResponse.conversation_state r = st
        /\ visitor_checkin_step
             (StepRequest.mk (StepResponse.conversation_state r) inp mode) = Ok r).
Proof.
  intros Hraw. split.
  - intros out1 out2 -> ->. split; [reflexivity|].
    intros r1 r2 -> [= ->]. repeat split.
  - intros r Hr.
    destruct (first_missing expected_fields_order st) as [[f p]|] eqn:Hf.
    + rewrite (step_no_input_ok st inp mode f p Hf Hraw) in Hr.
      injection Hr as <-. cbn. split; [reflexivity|].
      by apply step_no_input_ok.
    + by rewrite (step_done_raises st inp mode Hf) in Hr.
Qed.

Lemma step_empty_input_idempotent_witness :
  let st : gmap str str := {[ py "full_name" := py "Alice Smith" ]} in
  let r := StepResponse.mk (py "What is your email address? (You may skip)")
             (Some (py "email")) st false None None in
  strip [] = []
  /\ visitor_checkin_step (StepRequest.mk st [] (py "text")) = Ok r
  /\ visitor_checkin_step
       (StepRequest.mk (StepResponse.conversation_state r) [] (py "text")) = Ok r.
Proof.
  cbv zeta. split; [reflexivity|].
  assert (visitor_checkin_step
            (StepRequest.mk {[ py "full_name" := py "Alice Smith" ]} [] (py "text"))
          = Ok (StepResponse.mk (py "What is your email address? (You may skip)")
                  (Some (py "email")) {[ py "full_name" := py "Alice Smith" ]}
                  false None None)) as H.
  { apply step_no_input_ok; reflexivity. }
  split; [exact H|].
  exact (proj2 (proj2 (step_empty_input_idempotent
                         {[ py "full_name" := py "Alice Smith" ]} [] (py "text")
                         eq_refl) _ H)).
Defined.

(** The state at [return] is the input state, or the input state with
    the trimmed input stored under the pending field. *)
Lemma step_locals_state payload :
  let st := StepRequest.conversation_state payload in
  let raw := strip (StepRequest.user_input payload) in
  l_state (visitor_checkin_step_locals payload) = st
  \/ exists f p,
       first_missing expected_fields_order st = Some (f, p)
       /\ raw <> []
       /\ l_state (visitor_checkin_step_locals payload) = <[f := raw]> st.
Proof.
  cbv zeta.
  destruct (first_missing expected_fields_order
              (StepRequest.conversation_state payload)) as [[f p]|] eqn:Hf.
  - destruct (decide (strip (StepRequest.user_input payload) = [])) as [Hraw|Hraw].
    + left. by rewrite (step_locals_no_input payload f p Hf Hraw).
    + right. exists f, p. split; [done|]. split; [done|].
      rewrite (step_locals_assign payload f p Hf Hraw). cbv zeta.
      by destruct (first_missing expected_fields_order (<[f:=_]> _)) as [[? ?]|].
  - left. by rewrite (step_locals_done payload Hf).
Qed.

(** C9: the state the handler returns keeps every non-empty answer of
    the input state, and differs from the input state in at most one
    key, the first field of the fixed order that was absent or empty. *)
Theorem step_state_frame (payload : StepRequest.t) :
  let st := StepRequest.conversation_state payload in
  let st' := l_state (visitor_checkin_step_locals payload) in
  (forall r, visitor_checkin_step payload = Ok r ->
             StepResponse.conversation_state r = st')
  /\ (forall k v, st !! k = Some v -> v <> [] -> st' !! k = Some v)
  /\ (forall k, st' !! k <> st !! k ->
        exists pre p post,
          expected_fields_order = pre ++ (k, p) :: post
          /\ Forall (fun fp => opt_bool (st !! fp.1) = true) pre
          /\ opt_bool (st !! k) = false)
  /\ (forall k1 k2, st' !! k1 <> st !! k1 -> st' !! k2 <> st !! k2 -> k1 = k2).
Proof.
  cbv zeta. split.
  { intros r. unfold visitor_checkin_step, VisitorCheckinStepResponse.
    destruct (l_next_prompt _); [|discriminate]. by intros [= <-]. }
  destruct (step_locals_state payload) as [-> | (f & p & Hf & Hraw & ->)].
  { repeat split; intros; done. }
  pose proof (proj1 (first_missing_Some _ _ _ _) Hf) as (pre & post & Hsplit & Hpre & Hun).
  assert (forall k, <[f:=strip (StepRequest.user_input payload)]>
                      (StepRequest.conversation_state payload) !! k
                    <> StepRequest.conversation_state payload !! k -> k = f) as Hdiff.
  { intros k Hk. destruct (decide (f = k)) as [->|Hne]; [done|].
    by rewrite lookup_insert_ne in Hk. }
  split; [|split].
  - intros k v Hk Hv. rewrite lookup_insert_ne; [done|].
    intros <-. rewrite Hk in Hun. simpl in Hun.
    apply str_bool_false in Hun. congruence.
  - intros k ->%Hdiff. by exists pre, p, post.
  - intros k1 k2 ->%Hdiff ->%Hdiff. reflexivity.
Qed.



Lemma step_answers_next (kvs : list (str * str)) inp mode f p g q :
  Forall (fun kv => kv.2 <> []) kvs ->
  strip inp <> [] ->
  find (unanswered kvs.*1) expected_fields_order = Some (f, p) ->
  find (unanswered (f :: kvs.*1)) expected_fields_order = Some (g, q) ->
  email_errors f (strip inp) [] = [] ->
  visitor_checkin_step (StepRequest.mk (list_to_map kvs) inp mode)
  = Ok (StepResponse.mk q (Some g) (list_to_map ((f, strip inp) :: kvs))
          false None None).
Proof.
  intros Hkvs Hraw Hf Hg He.
  rewrite (step_answers kvs inp mode f p Hkvs Hraw Hf). cbv zeta.
  by rewrite Hg, He.
Qed.

Lemma step_answers_last (kvs : list (str * str)) inp mode f p :
  Forall (fun kv => kv.2 <> []) kvs ->
  strip inp <> [] ->
  find (unanswered kvs.*1) expected_fields_order = Some (f, p) ->
  find (unanswered (f :: kvs.*1)) expected_fields_order = None ->
  email_errors f (strip inp) [] = [] ->
  visitor_checkin_step (StepRequest.mk (list_to_map kvs) inp mode)
  = Ok (StepResponse.mk completion_prompt (Some f)
          (list_to_map ((f, strip inp) :: kvs)) true None None).
Proof.
  intros Hkvs Hraw Hf Hg He.
  rewrite (step_answers kvs inp mode f p Hkvs Hraw Hf). cbv zeta.
  by rewrite Hg, He.
Qed.

(** C2: six calls from the empty state, each fed the state the previous
    one returned, with a name, an email with '@', a phone, an id number,
    a host email with '@' and a purpose, all non-empty once trimmed:
    every call returns a response without errors, the first five are
    not complete and the sixth is. *)
Theorem six_steps_complete
    (name email phone idn host purpose m1 m2 m3 m4 m5 m6 : str) :
  strip name <> [] -> strip email <> [] -> strip phone <> [] ->
  strip idn <> [] -> strip host <> [] -> strip purpose <> [] ->
  at_sign ∈ email -> at_sign ∈ host ->
  exists r1 r2 r3 r4 r5 r6,
    visitor_checkin_step (StepRequest.mk ∅ name m1) = Ok r1
    /\ visitor_checkin_step
         (StepRequest.mk (StepResponse.conversation_state r1) email m2) = Ok r2
    /\ visitor_checkin_step
         (StepRequest.mk (StepResponse.conversation_state r2) phone m3) = Ok r3
    /\ visitor_checkin_step
         (StepRequest.mk (StepResponse.conversation_state r3) idn m4) = Ok r4
    /\ visitor_checkin_step
         (StepRequest.mk (StepResponse.conversation_state r4) host m5) = Ok r5
    /\ visitor_checkin_step
         (StepRequest.mk (StepResponse.conversation_state r5) purpose m6) = Ok r6
    /\ Forall (fun r => StepResponse.errors r = None) [r1; r2; r3; r4; r5; r6]
    /\ Forall (fun r => StepResponse.is_complete r = false) [r1; r2; r3; r4; r5]
    /\ StepResponse.is_complete r6 = true
    /\ StepResponse.conversation_state r6
       = interview_state (strip name) (strip email) (strip phone) (strip idn)
           (strip host) (strip purpose).
Proof.
  intros Hn He Hp Hi Hh Hu HeA HhA.
  apply (strip_keeps at_sign _ eq_refl) in HeA, HhA.
  assert (email_errors (py "full_name") (strip name) [] = []) as E1
    by (apply email_errors_other; discriminate).
  assert (email_errors (py "phone") (strip phone) [] = []) as E3
    by (apply email_errors_other; discriminate).
  assert (email_errors (py "id_number") (strip idn) [] = []) as E4
    by (apply email_errors_other; discriminate).
  assert (email_errors (py "purpose") (strip purpose) [] = []) as E6
    by (apply email_errors_other; discriminate).
  pose proof (step_answers_next [] name m1 (py "full_name") _ _ _
                (Forall_nil_2 _) Hn eq_refl eq_refl E1)
    as H1.
  assert (Forall (fun kv : str * str => kv.2 <> [])
            [ (py "purpose", strip purpose); (py "host_email", strip host);
              (py "id_number", strip idn); (py "phone", strip phone);
              (py "email", strip email); (py "full_name", strip name) ]) as Hall
    by (repeat constructor; done).
  pose proof Hall as Hk5. apply Forall_cons_1 in Hk5 as [_ Hk5].
  pose proof Hk5 as Hk4. apply Forall_cons_1 in Hk4 as [_ Hk4].
  pose proof Hk4 as Hk3. apply Forall_cons_1 in Hk3 as [_ Hk3].
  pose proof Hk3 as Hk2. apply Forall_cons_1 in Hk2 as [_ Hk2].
  pose proof Hk2 as Hk1. apply Forall_cons_1 in Hk1 as [_ Hk1].
  pose proof (step_answers_next _ email m2 _ _ _ _ Hk1 He eq_refl eq_refl
                (email_errors_with_at _ _ HeA)) as H2.
  pose proof (step_answers_next _ phone m3 (py "phone") _ _ _ Hk2 Hp eq_refl eq_refl E3)
    as H3.
  pose proof (step_answers_next _ idn m4 (py "id_number") _ _ _ Hk3 Hi eq_refl eq_refl E4)
    as H4.
  pose proof (step_answers_next _ host m5 _ _ _ _ Hk4 Hh eq_refl eq_refl
                (email_errors_with_at _ _ HhA)) as H5.
  pose proof (step_answers_last _ purpose m6 (py "purpose") _ Hk5 Hu eq_refl eq_refl E6)
    as H6.
  do 6 eexists.
  split; [exact H1|]. split; [exact H2|]. split; [exact H3|].
  split; [exact H4|]. split; [exact H5|]. split; [exact H6|].
  split; [by repeat constructor|]. split; [by repeat constructor|].
  split; reflexivity.
Qed.

Lemma six_steps_complete_witness :
  let name := py "Alice Smith" in
  let email := py " alice@example.com" in
  let phone := py "5551234567" in
  let idn := py "X123" in
  let host := py "bob@example.com " in
  let purpose := py "Meeting" in
  let text := py "text" in
  (strip name <> [] /\ strip email <> [] /\ strip phone <> []
   /\ strip idn <> [] /\ strip host <> [] /\ strip purpose <> []
   /\ at_sign ∈ email /\ at_sign ∈ host)
  /\ exists r1 r2 r3 r4 r5 r6,
      visitor_checkin_step (StepRequest.mk ∅ name text) = Ok r1
      /\ visitor_checkin_step
           (StepRequest.mk (StepResponse.conversation_state r1) email text) = Ok r2
      /\ visitor_checkin_step
           (StepRequest.mk (StepResponse.conversation_state r2) phone text) = Ok r3
      /\ visitor_checkin_step
           (StepRequest.mk (StepResponse.conversation_state r3) idn text) = Ok r4
      /\ visitor_checkin_step
           (StepRequest.mk (StepResponse.conversation_state r4) host text) = Ok r5
      /\ visitor_checkin_step
           (StepRequest.mk (StepResponse.conversation_state r5) purpose text) = Ok r6
      /\ Forall (fun r => StepResponse.errors r = None) [r1; r2; r3; r4; r5; r6]
      /\ Forall (fun r => StepResponse.is_complete r = false) [r1; r2; r3; r4; r5]
      /\ StepResponse.is_complete r6 = true
      /\ StepResponse.conversation_state r6
         = interview_state (strip name) (strip email) (strip phone) (strip idn)
             (strip host) (strip purpose).
Proof.
  cbv zeta.
  assert (at_sign ∈ py " alice@example.com") as HeA
    by (apply str_in_singleton; reflexivity).
  assert (at_sign ∈ py "bob@example.com ") as HhA
    by (apply str_in_singleton; reflexivity).
  split.
  - repeat (split; [discriminate|]). by split.
  - apply six_steps_complete; (discriminate || assumption).
Defined.

(** ** Claims about the field validator *)

Lemma isdigit_Forall (is_digit : char -> bool) (s : str) :
  isdigit is_digit s = true
  <-> s <> [] /\ Forall (fun c => is_digit c = true) s.
Proof.
  unfold isdigit. destruct s as [|c s].
  - split; [discriminate | by intros [? _]].
  - rewrite forallb_forall, Forall_forall.
    split.
    + intros H. split; [done|]. intros x Hx. by apply H, list_elem_of_In.
    + intros [_ H] x Hx. by apply H, list_elem_of_In.
Qed.

Lemma is_valid_phone (is_digit : char -> bool) (v : str) :
  FieldValidationResult.is_valid
    (validate_field is_digit (FieldValidationRequest.mk (py "phone") v))
  = isdigit is_digit v && ((7 <=? length v)%nat && (length v <=? 15)%nat).
Proof.
  unfold validate_field.
  cbn [FieldValidationRequest.field FieldValidationRequest.value].
  by destruct (isdigit is_digit v), (7 <=? length v)%nat, (length v <=? 15)%nat.
Qed.

Lemma is_valid_id_number (is_digit : char -> bool) (v : str) :
  FieldValidationResult.is_valid
    (validate_field is_digit (FieldValidationRequest.mk (py "id_number") v))
  = negb (length v <? 3)%nat.
Proof.
  unfold validate_field.
  cbn [FieldValidationRequest.field FieldValidationRequest.value].
  by destruct (length v <? 3)%nat.
Qed.

Lemma is_valid_email (is_digit : char -> bool) (v : str) :
  FieldValidationResult.is_valid
    (validate_field is_digit (FieldValidationRequest.mk (py "email") v))
  = str_in [at_sign] v.
Proof.
  unfold validate_field.
  cbn [FieldValidationRequest.field FieldValidationRequest.value].
  by destruct (str_in [at_sign] v).
Qed.

Lemma errors_iff_valid (is_digit : char -> bool) (f v : str) :
  FieldValidationResult.errors
    (validate_field is_digit (FieldValidationRequest.mk f v)) = None
  <-> FieldValidationResult.is_valid
        (validate_field is_digit (FieldValidationRequest.mk f v)) = true.
Proof.
  unfold validate_field.
  cbn [FieldValidationRequest.field FieldValidationRequest.value].
  destruct (bool_decide (f = py "email")).
  { by destruct (str_in [at_sign] v). }
  destruct (bool_decide (f = py "phone")).
  { by destruct (isdigit is_digit v), (7 <=? length v)%nat,
         (length v <=? 15)%nat. }
  destruct (bool_decide (f = py "id_number")); [|done].
  by destruct (length v <? 3)%nat.
Qed.

(** C5: the rule of each field. [phone] is valid exactly when every
    character is a digit and the length is between 7 and 15; [id_number]
    exactly when the length is at least 3; [email] exactly when the
    value has an '@'; any other field is valid for every value; and the
    error list is absent exactly when the value is valid. *)
Theorem validate_field_rules (is_digit : char -> bool) (v : str) :
  let validate f := validate_field is_digit (FieldValidationRequest.mk f v) in
  (FieldValidationResult.is_valid (validate (py "phone")) = true
   <-> Forall (fun c => is_digit c = true) v /\ (7 <= length v <= 15)%nat)
  /\ (FieldValidationResult.is_valid (validate (py "id_number")) = true
      <-> (3 <= length v)%nat)
  /\ (FieldValidationResult.is_valid (validate (py "email")) = true
      <-> at_sign ∈ v)
  /\ (forall f, f <> py "email" -> f <> py "phone" -> f <> py "id_number" ->
        FieldValidationResult.is_valid (validate f) = true)
  /\ (forall f, FieldValidationResult.errors (validate f) = None
                <-> FieldValidationResult.is_valid (validate f) = true).
Proof.
  cbv zeta.
  split; [|split; [|split; [|split]]].
  - rewrite is_valid_phone, !andb_true_iff, isdigit_Forall, !Nat.leb_le.
    split; [tauto|]. intros (Hd & H7 & H15). repeat split; try done.
    intros ->. simpl in H7. lia.
  - rewrite is_valid_id_number, negb_true_iff, Nat.ltb_ge. reflexivity.
  - rewrite is_valid_email. apply str_in_singleton.
  - intros f H1 H2 H3. unfold validate_field.
    cbn [FieldValidationRequest.field FieldValidationRequest.value].
    by rewrite !bool_decide_eq_false_2.
  - intros f. apply errors_iff_valid.
Qed.

(** The cases the specification lists for the validator. *)
Example validate_phone_short (is_digit : char -> bool) :
  validate_field is_digit (FieldValidationRequest.mk (py "phone") (py "12345"))
  = FieldValidationResult.mk (py "phone") (py "12345") false
      (Some [py "Invalid phone number; must be 7-15 digits."]).
Proof.
  unfold validate_field.
  cbn [FieldValidationRequest.field FieldValidationRequest.value].
  by destruct (isdigit is_digit (py "12345")).
Qed.

Example validate_phone_seven :
  validate_field ascii_digit (FieldValidationRequest.mk (py "phone") (py "1234567"))
  = FieldValidationResult.mk (py "phone") (py "1234567") true None.
Proof. reflexivity. Qed.

Example validate_id_number_two (is_digit : char -> bool) :
  validate_field is_digit (FieldValidationRequest.mk (py "id_number") (py "ab"))
  = FieldValidationResult.mk (py "id_number") (py "ab") false
      (Some [py "ID must be at least 3 characters."]).
Proof. reflexivity. Qed.

Example validate_id_number_three (is_digit : char -> bool) :
  validate_field is_digit (FieldValidationRequest.mk (py "id_number") (py "abc"))
  = FieldValidationResult.mk (py "id_number") (py "abc") true None.
Proof. reflexivity. Qed.

(** ** Claims about finalize *)

Lemma query_visitor_None db full_name email :
  query_visitor db (Some full_name) email = None
  <-> Forall (fun v => ~ same_visitor full_name email v) (visitors db).
Proof.
  unfold query_visitor, filter_eq, same_visitor.
  induction (visitors db) as [|v vs IH]; simpl.
  - split; [constructor | done].
  - destruct (decide (Visitor.full_name v = full_name /\ Visitor.email v = email))
      as [[H1 H2]|Hno].
    + rewrite !bool_decide_eq_true_2 by congruence. simpl.
      split; [discriminate|]. inversion 1; tauto.
    + replace (bool_decide (Some (Visitor.full_name v) = Some full_name)
               && bool_decide (Visitor.email v = email)) with false.
      * rewrite IH. split; [by constructor | by inversion 1].
      * symmetry. apply andb_false_iff.
        destruct (decide (Visitor.full_name v = full_name)) as [H1|H1].
        -- right. apply bool_decide_eq_false_2. tauto.
        -- left. apply bool_decide_eq_false_2. congruence.
Qed.

Lemma query_visitor_added db db' full_name email v :
  query_visitor db (Some full_name) email = None ->
  visitors db' = visitors db ++ [v] ->
  same_visitor full_name email v ->
  query_visitor db' (Some full_name) email = Some v.
Proof.
  unfold query_visitor. intros Hnone -> [H1 H2].
  induction (visitors db) as [|w ws IH]; simpl in *.
  - unfold filter_eq. by rewrite !bool_decide_eq_true_2 by congruence.
  - destruct (filter_eq (Some (Visitor.full_name w)) (Some full_name)
              && filter_eq (Visitor.email w) email); [discriminate|].
    by apply IH.
Qed.

(** No host row has a NULL email: the column is [nullable=False]. *)
Lemma query_host_null db : query_host db None = None.
Proof.
  unfold query_host, filter_eq. induction (hosts db) as [|h hs IH]; [done|].
  simpl. exact IH.
Qed.

(** A call for a pair that has no row: one row is appended to
    [visitors], and a visit is logged for it when the payload names a
    host. *)
Lemma finalize_new_visitor payload t_visitor t_visit db full_name :
  payload !! py "full_name" = Some (Some full_name) ->
  query_visitor db (Some full_name) (payload_get payload (py "email")) = None ->
  let v := Visitor.mk (visitors_id_seq db + 1) full_name
             (payload_get payload (py "email"))
             (payload_get payload (py "phone"))
             (payload_get payload (py "id_number")) t_visitor in
  let out := visitor_checkin_finalize payload t_visitor t_visit db in
  visitors out.1 = visitors db ++ [v]
  /\ match payload_get payload (py "host_email") with
     | None => out.2 = Raise AttributeError /\ visit_logs out.1 = visit_logs db
     | Some _ =>
       exists l o,
         out.2 = Ok o /\ VisitLogOut.visitor o = v
         /\ visit_logs out.1 = visit_logs db ++ [l]
         /\ VisitLog.visitor_id l = Visitor.id v
     end.
Proof.
  intros Hname Hq. cbv zeta. unfold visitor_checkin_finalize.
  rewrite Hname, Hq. cbn [add_visitor].
  destruct (payload_get payload (py "host_email")) as [he|].
  - match goal with
    | |- context [query_host ?d ?e] => destruct (query_host d e) as [h|]
    end; cbn; (split; [reflexivity|]); eauto 10.
  - rewrite query_host_null. cbn. auto.
Qed.

(** A call for a pair that has a row: [visitors] is left as it is, and
    the visit that is logged when the payload names a host carries the
    id of the row the query returns. *)
Lemma finalize_known_visitor payload t_visitor t_visit db full_name v :
  payload !! py "full_name" = Some (Some full_name) ->
  query_visitor db (Some full_name) (payload_get payload (py "email")) = Some v ->
  let out := visitor_checkin_finalize payload t_visitor t_visit db in
  visitors out.1 = visitors db
  /\ match payload_get payload (py "host_email") with
     | None => out.2 = Raise AttributeError /\ visit_logs out.1 = visit_logs db
     | Some _ =>
       exists l o,
         out.2 = Ok o /\ VisitLogOut.visitor o = v
         /\ visit_logs out.1 = visit_logs db ++ [l]
         /\ VisitLog.visitor_id l = Visitor.id v
     end.
Proof.
  intros Hname Hq. cbv zeta. unfold visitor_checkin_finalize.
  rewrite Hname, Hq.
  destruct (payload_get payload (py "host_email")) as [he|].
  - destruct (query_host db (Some he)) as [h|];
      cbn; (split; [reflexivity|]); eauto 10.
  - rewrite query_host_null. cbn. auto.
Qed.

(** C6: a call for a (full_name, email) pair that has no Visitor row
    appends exactly one row with that name and email; a following call
    with the same pair leaves the Visitor table as it is, and the visit
    it logs carries the id of that row (a visit is logged when the
    payload names a host; without one the call fails after the Visitor
    stage and logs nothing). *)
Theorem finalize_get_or_create_visitor
    (db : Db) (payload1 payload2 : gmap str (option str))
    (t1 t1' t2 t2' : Z) (full_name : str) (email : option str) :
  payload1 !! py "full_name" = Some (Some full_name) ->
  payload_get payload1 (py "email") = email ->
  payload2 !! py "full_name" = Some (Some full_name) ->
  payload_get payload2 (py "email") = email ->
  Forall (fun v => ~ same_visitor full_name email v) (visitors db) ->
  let out1 := visitor_checkin_finalize payload1 t1 t1' db in
  let out2 := visitor_checkin_finalize payload2 t2 t2' out1.1 in
  exists v,
    visitors out1.1 = visitors db ++ [v]
    /\ same_visitor full_name email v
    /\ visitors out2.1 = visitors out1.1
    /\ match payload_get payload2 (py "host_email") with
       | Some _ =>
         exists l o,
           out2.2 = Ok o /\ VisitLogOut.visitor o = v
           /\ visit_logs out2.1 = visit_logs out1.1 ++ [l]
           /\ VisitLog.visitor_id l = Visitor.id v
       | None =>
         out2.2 = Raise AttributeError /\ visit_logs out2.1 = visit_logs out1.1
       end.
Proof.
  intros Hn1 He1 Hn2 He2 Hnew. cbv zeta.
  apply query_visitor_None in Hnew.
  pose proof Hnew as Hq1. rewrite <- He1 in Hq1.
  destruct (finalize_new_visitor payload1 t1 t1' db full_name Hn1 Hq1)
    as [Hv1 _].
  rewrite He1 in Hv1.
  set (v := Visitor.mk (visitors_id_seq db + 1) full_name email
              (payload_get payload1 (py "phone"))
              (payload_get payload1 (py "id_number")) t1) in *.
  assert (same_visitor full_name email v) as Hsame by (by split).
  pose proof (query_visitor_added db _ full_name email v Hnew Hv1 Hsame) as Hq2.
  rewrite <- He2 in Hq2.
  destruct (finalize_known_visitor payload2 t2 t2' _ full_name v Hn2 Hq2)
    as [Hv2 Hlog].
  exists v. repeat (split; [done|]). exact Hlog.
Qed.

Lemma finalize_get_or_create_visitor_witness :
  let db := mk_db [] 0 [] 0 [] 0 in
  let payload1 : gmap str (option str) :=
    list_to_map
      [ (py "full_name", Some (py "Alice Smith"));
        (py "email", Some (py "alice@example.com"));
        (py "phone", Some (py "5551234567"));
        (py "host_email", Some (py "bob@example.com"));
        (py "purpose", Some (py "Meeting")) ] in
  let payload2 : gmap str (option str) :=
    list_to_map
      [ (py "full_name", Some (py "Alice Smith"));
        (py "email", Some (py "alice@example.com"));
        (py "host_email", Some (py "carol@example.com")) ] in
  let alice :=
    Visitor.mk 1 (py "Alice Smith") (Some (py "alice@example.com"))
      (Some (py "5551234567")) None 10 in
  let out1 := visitor_checkin_finalize payload1 10 11 db in
  let out2 := visitor_checkin_finalize payload2 20 21 out1.1 in
  (payload1 !! py "full_name" = Some (Some (py "Alice Smith"))
   /\ payload_get payload1 (py "email") = Some (py "alice@example.com")
   /\ payload2 !! py "full_name" = Some (Some (py "Alice Smith"))
   /\ payload_get payload2 (py "email") = Some (py "alice@example.com")
   /\ Forall (fun v => ~ same_visitor (py "Alice Smith")
                          (Some (py "alice@example.com")) v) (visitors db))
  /\ visitors out1.1 = [alice]
  /\ visitors out2.1 = [alice]
  /\ VisitLog.visitor_id <$> visit_logs out2.1 = [1%Z; 1%Z]
  /\ exists v,
      visitors out1.1 = visitors db ++ [v]
      /\ same_visitor (py "Alice Smith") (Some (py "alice@example.com")) v
      /\ visitors out2.1 = visitors out1.1
      /\ match payload_get payload2 (py "host_email") with
         | Some _ =>
           exists l o,
             out2.2 = Ok o /\ VisitLogOut.visitor o = v
             /\ visit_logs out2.1 = visit_logs out1.1 ++ [l]
             /\ VisitLog.visitor_id l = Visitor.id v
         | None =>
           out2.2 = Raise AttributeError
           /\ visit_logs out2.1 = visit_logs out1.1
         end.
Proof.
  cbv zeta.
  split.
  { repeat (split; [vm_compute; reflexivity|]). constructor. }
  split; [vm_compute; reflexivity|].
  split; [vm_compute; reflexivity|].
  split; [vm_compute; reflexivity|].
  apply finalize_get_or_create_visitor.
  - vm_compute; reflexivity.
  - vm_compute; reflexivity.
  - vm_compute; reflexivity.
  - vm_compute; reflexivity.
  - constructor.
Defined.


(** * Further properties of the handlers *)

(** ** The interview as a whole *)

Lemma Ok_inj {A : Type} (a b : A) : Ok a = Ok b -> a = b.
Proof. by intros [= ->]. Qed.

(** The response of a call that assigns, written out. *)
Lemma step_assign_eq st inp mode f p :
  first_missing expected_fields_order st = Some (f, p) ->
  strip inp <> [] ->
  visitor_checkin_step (StepRequest.mk st inp mode)
  = Ok (let state := <[f := strip inp]> st in
        let errors :=
          match email_errors f (strip inp) [] with
          | [] => None
          | e :: es => Some (e :: es)
          end in
        match first_missing expected_fields_order state with
        | Some (field, prompt) =>
          StepResponse.mk prompt (Some field) state false errors None
        | None =>
          StepResponse.mk completion_prompt (Some f) state true errors None
        end).
Proof.
  intros Hf Hraw. unfold visitor_checkin_step.
  rewrite (step_locals_assign (StepRequest.mk st inp mode) f p Hf Hraw).
  cbn [StepRequest.conversation_state StepRequest.user_input]. cbv zeta.
  destruct (first_missing expected_fields_order (<[f:=strip inp]> st))
    as [[g q]|]; cbn; by destruct (email_errors f (strip inp) []).
Qed.

(** The three outcomes of a call. *)
Lemma step_cases st inp mode :
  (first_missing expected_fields_order st = None
   /\ visitor_checkin_step (StepRequest.mk st inp mode) = Raise ValidationError)
  \/ (exists f p,
        first_missing expected_fields_order st = Some (f, p)
        /\ strip inp = []
        /\ visitor_checkin_step (StepRequest.mk st inp mode)
           = Ok (StepResponse.mk p (Some f) st false None None))
  \/ (exists f p,
        first_missing expected_fields_order st = Some (f, p)
        /\ strip inp <> []
        /\ opt_bool (st !! f) = false
        /\ visitor_checkin_step (StepRequest.mk st inp mode)
           = Ok (let state := <[f := strip inp]> st in
                 let errors :=
                   match email_errors f (strip inp) [] with
                   | [] => None
                   | e :: es => Some (e :: es)
                   end in
                 match first_missing expected_fields_order state with
                 | Some (field, prompt) =>
                   StepResponse.mk prompt (Some field) state false errors None
                 | None =>
                   StepResponse.mk completion_prompt (Some f) state true errors None
                 end)).
Proof.
  destruct (first_missing expected_fields_order st) as [[f p]|] eqn:Hf.
  - right. destruct (decide (strip inp = [])) as [Hraw|Hraw].
    + left. exists f, p. split; [done|]. split; [done|].
      exact (step_no_input_ok st inp mode f p Hf Hraw).
    + right. exists f, p. split; [done|]. split; [done|]. split.
      * by apply first_missing_Some in Hf as (? & ? & _ & _ & ?).
      * exact (step_assign_eq st inp mode f p Hf Hraw).
  - left. split; [done|]. by apply step_done_raises.
Qed.



(** X2: the handler fails exactly when all six fields are already
    answered, and the only failure it has is the response model's
    refusal of the missing prompt. *)
Theorem step_raises_iff_all_answered (payload : StepRequest.t) :
  (visitor_checkin_step payload = Raise ValidationError
   <-> Forall (fun fp => opt_bool (StepRequest.conversation_state payload !! fp.1) = true)
         expected_fields_order)
  /\ (forall e, visitor_checkin_step payload = Raise e -> e = ValidationError).
Proof.
  destruct payload as [st inp mode]. cbn.
  rewrite <- first_missing_None.
  destruct (step_cases st inp mode)
    as [[Hf ->] | [(f & p & Hf & _ & ->) | (f & p & Hf & _ & _ & ->)]].
  - split; [done|]. by intros e [= <-].
  - rewrite Hf. split; [split; discriminate | discriminate].
  - rewrite Hf. split; [split; discriminate | discriminate].
Qed.

Lemma app_cons_split {A : Type} (l1 l2 l1' l2' : list A) (x y : A) :
  l1 ++ x :: l2 = l1' ++ y :: l2' ->
  (exists m, l1' = l1 ++ x :: m /\ l2 = m ++ y :: l2')
  \/ (l1 = l1' /\ x = y /\ l2 = l2')
  \/ (exists m, l1 = l1' ++ y :: m /\ l2' = m ++ x :: l2).
Proof.
  revert l1'. induction l1 as [|a l1 IH]; intros [|b l1']; simpl; intros H.
  - injection H as Hx Hl. subst. right. by left.
  - injection H as Hx Hl. subst. left. by exists l1'.
  - injection H as Hx Hl. subst. right. right. by exists l1.
  - injection H as Hx Hl. subst b.
    destruct (IH _ Hl) as [(m & -> & ->) | [(-> & -> & ->) | (m & -> & ->)]].
    + left. by exists m.
    + right. by left.
    + right. right. by exists m.
Qed.

Lemma opt_bool_insert (st : gmap str str) (f g raw : str) :
  raw <> [] ->
  opt_bool (<[f := raw]> st !! g)
  = if decide (f = g) then true else opt_bool (st !! g).
Proof.
  intros Hraw. rewrite lookup_insert. destruct (decide (f = g)); [|done].
  by apply str_bool_true.
Qed.

(** X3: the interview only moves forward. After a call that stores an
    answer and does not complete the interview, the field asked next
    stands later in the fixed order than the field just answered. *)
Theorem step_moves_forward (st : gmap str str) (inp mode : str) (r : StepResponse.t) :
  visitor_checkin_step (StepRequest.mk st inp mode) = Ok r ->
  strip inp <> [] ->
  StepResponse.is_complete r = false ->
  exists pre f p mid g q post,
    expected_fields_order = pre ++ (f, p) :: mid ++ (g, q) :: post
    /\ first_missing expected_fields_order st = Some (f, p)
    /\ StepResponse.conversation_state r !! f = Some (strip inp)
    /\ StepResponse.next_field r = Some g
    /\ StepResponse.next_prompt r = q.
Proof.
  intros Hr Hraw Hc.
  destruct (step_cases st inp mode)
    as [[_ H] | [(f & p & _ & H & _) | (f & p & Hf & _ & Hun & H)]];
    [congruence | congruence |].
  rewrite H in Hr. apply Ok_inj in Hr. cbv zeta in Hr.
  destruct (first_missing expected_fields_order (<[f:=strip inp]> st))
    as [[g q]|] eqn:Hg; subst r; [|discriminate]. clear Hc H.
  apply first_missing_Some in Hg as (pre' & post' & Hsplit' & Hpre' & Hun').
  pose proof Hf as (pre & post & Hsplit & Hpre & _)%first_missing_Some.
  rewrite opt_bool_insert in Hun' by done.
  destruct (decide (f = g)) as [|Hne]; [discriminate|].
  rewrite Hsplit in Hsplit'.
  destruct (app_cons_split _ _ _ _ _ _ Hsplit')
    as [(m & -> & ->) | [(_ & [= ? _] & _) | (m & -> & _)]]; [|done|].
  - exists pre, f, p, m, g, q, post'. cbn. by rewrite lookup_insert_eq.
  - apply Forall_app in Hpre as [_ Hpre]. apply Forall_cons_1 in Hpre as [Hg _].
    simpl in Hg. congruence.
Qed.

Lemma step_moves_forward_witness :
  let st : gmap str str := {[ py "full_name" := py "Alice Smith" ]} in
  let inp := py "alice@example.com" in
  let r := StepResponse.mk (py "And your phone number? (optional)")
             (Some (py "phone")) (<[py "email" := inp]> st) false None None in
  (visitor_checkin_step (StepRequest.mk st inp (py "text")) = Ok r
   /\ strip inp <> [] /\ StepResponse.is_complete r = false)
  /\ exists pre f p mid g q post,
      expected_fields_order = pre ++ (f, p) :: mid ++ (g, q) :: post
      /\ first_missing expected_fields_order st = Some (f, p)
      /\ StepResponse.conversation_state r !! f = Some (strip inp)
      /\ StepResponse.next_field r = Some g
      /\ StepResponse.next_prompt r = q.
Proof.
  cbv zeta.
  match goal with
  | |- (?run = Ok ?r /\ ?a /\ ?b) /\ _ =>
    assert (run = Ok r) as H by (vm_compute; reflexivity);
    assert a as Ha by discriminate;
    split; [by repeat split|];
    exact (step_moves_forward _ _ _ r H Ha eq_refl)
  end.
Defined.

Lemma expected_fields_NoDup : NoDup expected_fields_order.*1.
Proof. apply (bool_decide_unpack _). by vm_compute. Qed.

Lemma missing_insert_notin (l : list (str * str)) (st : gmap str str) f raw :
  raw <> [] -> f ∉ l.*1 ->
  List.filter (fun fp => negb (opt_bool (<[f := raw]> st !! fp.1))) l
  = List.filter (fun fp => negb (opt_bool (st !! fp.1))) l.
Proof.
  intros Hraw. induction l as [|[g q] l IH]; [done|].
  rewrite fmap_cons, not_elem_of_cons. cbn [fst]. intros [Hne Hnot].
  cbn [List.filter fst]. rewrite opt_bool_insert by done.
  destruct (decide (f = g)); [done|]. by rewrite IH.
Qed.

Lemma missing_insert_in (l : list (str * str)) (st : gmap str str) f raw :
  raw <> [] -> NoDup l.*1 -> f ∈ l.*1 -> opt_bool (st !! f) = false ->
  S (length (List.filter (fun fp => negb (opt_bool (<[f := raw]> st !! fp.1))) l))
  = length (List.filter (fun fp => negb (opt_bool (st !! fp.1))) l).
Proof.
  intros Hraw Hnd Hin Hun. induction l as [|[g q] l IH]; [by inversion Hin|].
  rewrite fmap_cons in Hnd, Hin. cbn [fst] in Hnd, Hin.
  apply NoDup_cons in Hnd as [Hg Hnd].
  cbn [List.filter fst]. rewrite opt_bool_insert by done.
  destruct (decide (f = g)) as [->|Hne].
  - rewrite Hun. cbn. by rewrite missing_insert_notin.
  - apply elem_of_cons in Hin as [?|Hin]; [done|].
    destruct (negb (opt_bool (st !! g))); cbn; rewrite <- IH; done.
Qed.

Lemma first_missing_key (l : list (str * str)) (st : gmap str str) f p :
  first_missing l st = Some (f, p) -> f ∈ l.*1.
Proof.
  intros H%first_missing_elem.
  by apply (list_elem_of_fmap_2' fst l (f, p)).
Qed.

Lemma first_missing_filter (l : list (str * str)) (st : gmap str str) :
  first_missing l st = None
  <-> List.filter (fun fp => negb (opt_bool (st !! fp.1))) l = [].
Proof.
  unfold first_missing. induction l as [|[g q] l IH]; [done|].
  cbn [find List.filter fst].
  destruct (negb (opt_bool (st !! g))); [split; discriminate | exact IH].
Qed.

(** X4: the number of unanswered fields measures the interview. A call
    with an empty input leaves it as it is, a call that stores an
    answer lowers it by exactly one, and the response is complete
    exactly when the stored answer was for the last unanswered field;
    so at most six answers complete an interview. *)
Theorem step_missing_count (st : gmap str str) (inp mode : str) (r : StepResponse.t) :
  visitor_checkin_step (StepRequest.mk st inp mode) = Ok r ->
  let before := length (missing_fields st) in
  let after := length (missing_fields (StepResponse.conversation_state r)) in
  (1 <= before <= 6)%nat
  /\ (strip inp = [] -> after = before)
  /\ (strip inp <> [] -> S after = before)
  /\ (StepResponse.is_complete r = true <-> strip inp <> [] /\ before = 1%nat).
Proof.
  intros Hr. cbv zeta. unfold missing_fields.
  assert (length (List.filter
            (fun fp => negb (opt_bool (st !! fp.1))) expected_fields_order) <= 6)%nat
    as Hle by apply filter_length_le.
  destruct (step_cases st inp mode)
    as [[_ H] | [(f & p & Hf & Hraw & H) | (f & p & Hf & Hraw & Hun & H)]];
    rewrite H in Hr; [discriminate| |]; apply Ok_inj in Hr; subst r.
  - cbn [StepResponse.conversation_state StepResponse.is_complete].
    assert (first_missing expected_fields_order st <> None) as Hne by congruence.
    rewrite first_missing_filter in Hne.
    destruct (List.filter _ expected_fields_order) as [|x xs] eqn:Hx; [done|].
    cbn [length] in *. repeat split; try done; try lia.
    by intros [? _].
  - pose proof (missing_insert_in expected_fields_order st f (strip inp) Hraw
                  expected_fields_NoDup (first_missing_key _ _ _ _ Hf) Hun) as Hcount.
    pose proof (first_missing_filter expected_fields_order (<[f:=strip inp]> st))
      as Hnone.
    cbv zeta.
    destruct (first_missing expected_fields_order (<[f:=strip inp]> st))
      as [[g q]|] eqn:Hg;
      cbn [StepResponse.conversation_state StepResponse.is_complete].
    + destruct (List.filter
                  (fun fp => negb (opt_bool (<[f:=strip inp]> st !! fp.1)))
                  expected_fields_order) as [|x xs] eqn:Hx.
      { destruct Hnone as [_ Hnone]. by specialize (Hnone eq_refl). }
      cbn [length] in *. repeat split; try done; lia.
    + rewrite (proj1 Hnone eq_refl) in *. cbn [length] in *.
      repeat split; try done; lia.
Qed.

Lemma step_missing_count_witness :
  let st : gmap str str := {[ py "full_name" := py "Alice Smith" ]} in
  let inp := py "alice@example.com" in
  let r := StepResponse.mk (py "And your phone number? (optional)")
             (Some (py "phone")) (<[py "email" := inp]> st) false None None in
  visitor_checkin_step (StepRequest.mk st inp (py "text")) = Ok r
  /\ length (missing_fields st) = 5%nat
  /\ length (missing_fields (StepResponse.conversation_state r)) = 4%nat
  /\ ((1 <= length (missing_fields st) <= 6)%nat
      /\ (strip inp = [] ->
          length (missing_fields (StepResponse.conversation_state r))
          = length (missing_fields st))
      /\ (strip inp <> [] ->
          S (length (missing_fields (StepResponse.conversation_state r)))
          = length (missing_fields st))
      /\ (StepResponse.is_complete r = true
          <-> strip inp <> [] /\ length (missing_fields st) = 1%nat)).
Proof.
  cbv zeta.
  match goal with
  | |- ?run = Ok ?r /\ _ =>
    assert (run = Ok r) as H by (vm_compute; reflexivity);
    split; [exact H|]; split; [reflexivity|]; split; [reflexivity|];
    exact (step_missing_count _ _ _ r H)
  end.
Defined.

Lemma email_errors_cases f raw :
  email_errors f raw []
  = if bool_decide ((f = py "email" \/ f = py "host_email") /\ at_sign ∉ raw)
    then [if bool_decide (f = py "email") then py "Invalid email format."
          else py "Please provide a valid email for the host."]
    else [].
Proof.
  unfold email_errors.
  destruct (str_in [at_sign] raw) eqn:Hin; cbn [negb].
  - apply str_in_singleton in Hin.
    rewrite (bool_decide_eq_false_2 (_ /\ _)) by tauto.
    by repeat case_bool_decide.
  - assert (at_sign ∉ raw) as Hnot.
    { rewrite <- str_in_singleton. congruence. }
    destruct (decide (f = py "email")) as [->|H1].
    + rewrite (bool_decide_eq_true_2 (_ /\ _)) by tauto. reflexivity.
    + rewrite (bool_decide_eq_false_2 (f = py "email")) by done.
      destruct (decide (f = py "host_email")) as [->|H2].
      * rewrite (bool_decide_eq_true_2 (_ /\ _)) by tauto. reflexivity.
      * rewrite (bool_decide_eq_false_2 (_ /\ _)) by tauto.
        by rewrite bool_decide_eq_false_2.
Qed.

Lemma email_errors_length f raw : (length (email_errors f raw []) <= 1)%nat.
Proof. rewrite email_errors_cases. case_bool_decide; cbn; lia. Qed.

Lemma email_errors_nonempty f raw :
  email_errors f raw [] <> []
  <-> (f = py "email" \/ f = py "host_email") /\ at_sign ∉ raw.
Proof. rewrite email_errors_cases. case_bool_decide; split; done. Qed.

(** X5: the step validates the two email fields and nothing else. A
    response carries errors exactly when the field just answered is
    [email] or [host_email] and the stored answer has no '@'; an answer
    for [full_name], [phone], [id_number] or [purpose] is stored without
    any check. There is never more than one error. *)
Theorem step_errors_iff (st : gmap str str) (inp mode : str) (r : StepResponse.t) :
  visitor_checkin_step (StepRequest.mk st inp mode) = Ok r ->
  (StepResponse.errors r <> None
   <-> exists f p,
         first_missing expected_fields_order st = Some (f, p)
         /\ (f = py "email" \/ f = py "host_email")
         /\ strip inp <> []
         /\ at_sign ∉ strip inp)
  /\ (forall es, StepResponse.errors r = Some es -> length es = 1%nat).
Proof.
  intros Hr.
  destruct (step_cases st inp mode)
    as [[_ H] | [(f & p & Hf & Hraw & H) | (f & p & Hf & Hraw & Hun & H)]];
    rewrite H in Hr; [discriminate| |]; apply Ok_inj in Hr; subst r.
  - cbn. split; [|discriminate]. split; [done|].
    intros (g & q & Hg & _ & Hne & _). done.
  - pose proof (email_errors_nonempty f (strip inp)) as Hiff.
    pose proof (email_errors_length f (strip inp)) as Hlen.
    assert (StepResponse.errors
              (let state := <[f:=strip inp]> st in
               let errors := match email_errors f (strip inp) [] with
                             | [] => None
                             | e :: es => Some (e :: es)
                             end in
               match first_missing expected_fields_order state with
               | Some (field, prompt) =>
                 StepResponse.mk prompt (Some field) state false errors None
               | None =>
                 StepResponse.mk completion_prompt (Some f) state true errors None
               end)
            = match email_errors f (strip inp) [] with
              | [] => None
              | e :: es => Some (e :: es)
              end) as ->.
    { cbv zeta. by destruct (first_missing _ (<[f:=strip inp]> st)) as [[? ?]|]. }
    destruct (email_errors f (strip inp) []) as [|e es].
    + split; [|discriminate]. split; [done|].
      intros (g & q & Hg & Hcase & _ & Hat).
      rewrite Hf in Hg. injection Hg as <- <-.
      destruct Hiff as [_ Hiff]. by destruct Hiff.
    + split.
      * split; [|done]. intros _. exists f, p.
        destruct Hiff as [Hiff _]. destruct Hiff as [? ?]; done.
      * intros ? [= <-]. cbn in *. lia.
Qed.

Lemma step_errors_iff_witness :
  let st : gmap str str := {[ py "full_name" := py "Alice Smith" ]} in
  let inp := py "not-an-email" in
  let r := StepResponse.mk (py "And your phone number? (optional)")
             (Some (py "phone")) (<[py "email" := inp]> st) false
             (Some [py "Invalid email format."]) None in
  visitor_checkin_step (StepRequest.mk st inp (py "text")) = Ok r
  /\ (StepResponse.errors r <> None
      <-> exists f p,
            first_missing expected_fields_order st = Some (f, p)
            /\ (f = py "email" \/ f = py "host_email")
            /\ strip inp <> []
            /\ at_sign ∉ strip inp)
  /\ (forall es, StepResponse.errors r = Some es -> length es = 1%nat).
Proof.
  cbv zeta.
  match goal with
  | |- ?run = Ok ?r /\ _ =>
    assert (run = Ok r) as H by (vm_compute; reflexivity);
    split; [exact H|]; exact (step_errors_iff _ _ _ r H)
  end.
Defined.

(** X6: for the [email] field the step and the validator agree. The
    errors of a response that stored an email are the errors
    [validate_field] gives for that field and the stored value. *)
Theorem step_email_errors_are_validator_errors
    (is_digit : char -> bool) (st : gmap str str) (inp mode p : str)
    (r : StepResponse.t) :
  first_missing expected_fields_order st = Some (py "email", p) ->
  strip inp <> [] ->
  visitor_checkin_step (StepRequest.mk st inp mode) = Ok r ->
  StepResponse.conversation_state r !! py "email" = Some (strip inp)
  /\ StepResponse.errors r
     = FieldValidationResult.errors
         (validate_field is_digit
            (FieldValidationRequest.mk (py "email") (strip inp))).
Proof.
  intros Hf Hraw Hr.
  rewrite (step_assign_eq st inp mode _ p Hf Hraw) in Hr.
  apply Ok_inj in Hr. subst r. cbv zeta.
  assert (email_errors (py "email") (strip inp) []
          = if str_in [at_sign] (strip inp) then [] else [py "Invalid email format."])
    as ->.
  { unfold email_errors. by destruct (str_in [at_sign] (strip inp)). }
  unfold validate_field.
  cbn [FieldValidationRequest.field FieldValidationRequest.value].
  destruct (first_missing _ (<[py "email":=strip inp]> st)) as [[? ?]|];
    cbn [StepResponse.conversation_state StepResponse.errors];
    rewrite lookup_insert_eq; by destruct (str_in [at_sign] (strip inp)).
Qed.

Lemma step_email_errors_are_validator_errors_witness :
  let st : gmap str str := {[ py "full_name" := py "Alice Smith" ]} in
  let inp := py " not-an-email " in
  let p := py "What is your email address? (You may skip)" in
  let r := StepResponse.mk (py "And your phone number? (optional)")
             (Some (py "phone")) (<[py "email" := py "not-an-email"]> st) false
             (Some [py "Invalid email format."]) None in
  (first_missing expected_fields_order st = Some (py "email", p)
   /\ strip inp <> []
   /\ visitor_checkin_step (StepRequest.mk st inp (py "text")) = Ok r)
  /\ StepResponse.conversation_state r !! py "email" = Some (strip inp)
  /\ StepResponse.errors r
     = FieldValidationResult.errors
         (validate_field ascii_digit
            (FieldValidationRequest.mk (py "email") (strip inp))).
Proof.
  cbv zeta.
  match goal with
  | |- (?a /\ ?b /\ ?run = Ok ?r) /\ _ =>
    assert a as Ha by (vm_compute; reflexivity);
    assert b as Hb by discriminate;
    assert (run = Ok r) as H by (vm_compute; reflexivity);
    split; [by repeat split|];
    exact (step_email_errors_are_validator_errors ascii_digit _ _ _ _ r Ha Hb H)
  end.
Defined.

(** X7: what the step stores is the input without its surrounding
    whitespace. The stored answer is not empty, neither begins nor ends
    with a whitespace character, and the input is that answer between
    two runs of whitespace. *)
Theorem step_stores_trimmed (st : gmap str str) (inp mode f p : str) :
  first_missing expected_fields_order st = Some (f, p) ->
  strip inp <> [] ->
  exists r v w1 w2,
    visitor_checkin_step (StepRequest.mk st inp mode) = Ok r
    /\ StepResponse.conversation_state r !! f = Some v
    /\ v <> [] /\ trimmed v
    /\ inp = w1 ++ v ++ w2 /\ all_space w1 /\ all_space w2.
Proof.
  intros Hf Hraw.
  destruct (strip_split inp) as (w1 & w2 & Hsplit & H1 & H2).
  eexists _, (strip inp), w1, w2.
  split; [exact (step_assign_eq st inp mode f p Hf Hraw)|].
  split.
  - cbv zeta. destruct (first_missing _ (<[f:=strip inp]> st)) as [[? ?]|];
      cbn [StepResponse.conversation_state]; apply lookup_insert_eq.
  - repeat split; try done. apply strip_trimmed.
Qed.

Lemma step_stores_trimmed_witness :
  let inp := [9; 32] ++ py "Alice Smith" ++ [160; 10] in
  (first_missing expected_fields_order ∅
   = Some (py "full_name", py "What is your full name?")
   /\ strip inp <> [])
  /\ exists r v w1 w2,
      visitor_checkin_step (StepRequest.mk ∅ inp (py "text")) = Ok r
      /\ StepResponse.conversation_state r !! py "full_name" = Some v
      /\ v <> [] /\ trimmed v
      /\ inp = w1 ++ v ++ w2 /\ all_space w1 /\ all_space w2.
Proof.
  cbv zeta.
  assert (strip ([9; 32] ++ py "Alice Smith" ++ [160; 10]) <> []) as Hb
    by discriminate.
  split; [by split|].
  exact (step_stores_trimmed ∅ _ (py "text") _ _ eq_refl Hb).
Defined.

(** ** Finalize as a database transition *)

(** The handler in stages, by the shape of the payload. *)
Lemma finalize_stages (payload : gmap str (option str)) (t_visitor t_visit : Z)
    (db : Db) :
  let out := visitor_checkin_finalize payload t_visitor t_visit db in
  match payload !! py "full_name" with
  | None => out = (db, Raise (HTTPException 400))
  | Some None =>
    out = (mk_db (visitors db) (visitors_id_seq db + 1) (hosts db) (hosts_id_seq db)
             (visit_logs db) (visit_logs_id_seq db), Raise IntegrityError)
  | Some (Some full_name) =>
    let (db1, visitor) :=
      get_or_create_visitor db t_visitor full_name
        (payload_get payload (py "email")) (payload_get payload (py "phone"))
        (payload_get payload (py "id_number")) in
    match payload_get payload (py "host_email") with
    | None => out = (db1, Raise AttributeError)
    | Some host_email =>
      let (db2, host) := get_or_create_host db1 host_email in
      let (db3, visit) :=
        add_visit_log db2 t_visit (Visitor.id visitor) (Host.id host)
          (payload_get payload (py "purpose")) (py "checked_in") in
      out = (db3, Ok (VisitLogOut.mk (VisitLog.id visit) visitor host
                        (VisitLog.purpose visit) (VisitLog.check_in_time visit)
                        (VisitLog.check_out_time visit) (VisitLog.status visit)))
    end
  end.
Proof.
  cbv zeta. unfold visitor_checkin_finalize, get_or_create_visitor, get_or_create_host.
  destruct (payload !! py "full_name") as [[full_name|]|]; [| |reflexivity].
  - destruct (query_visitor db (Some full_name) _) as [v|];
      cbn [add_visitor];
      (destruct (payload_get payload (py "host_email")) as [he|];
       [|by rewrite query_host_null]);
      match goal with
      | |- context [query_host ?d ?e] => by destruct (query_host d e) as [h|]
      end.
  - replace (query_visitor db None (payload_get payload (py "email")))
      with (@None Visitor.t); [done|].
    unfold query_visitor, filter_eq. symmetry.
    induction (visitors db) as [|v vs IH]; [done|]. simpl. exact IH.
Qed.

Lemma find_Some_elem {A : Type} (f : A -> bool) (l : list A) (x : A) :
  find f l = Some x -> x ∈ l /\ f x = true.
Proof. intros [H1 H2]%find_some. split; [by apply list_elem_of_In | done]. Qed.

Lemma query_visitor_Some db full_name email v :
  query_visitor db (Some full_name) email = Some v ->
  v ∈ visitors db /\ same_visitor full_name email v.
Proof.
  unfold query_visitor, filter_eq, same_visitor.
  intros [Hin Hv]%find_Some_elem. split; [done|].
  apply andb_true_iff in Hv as [H1%bool_decide_eq_true H2%bool_decide_eq_true].
  split; congruence.
Qed.

Lemma query_host_Some db email h :
  query_host db (Some email) = Some h -> h ∈ hosts db /\ Host.email h = email.
Proof.
  unfold query_host, filter_eq.
  intros [Hin Hh%bool_decide_eq_true]%find_Some_elem. split; congruence.
Qed.

Lemma query_host_None db email :
  query_host db (Some email) = None -> email ∉ Host.email <$> hosts db.
Proof.
  unfold query_host, filter_eq. intros Hnone Hin.
  apply list_elem_of_fmap in Hin as (h & -> & Hin).
  apply list_elem_of_In in Hin.
  pose proof (find_none _ _ Hnone h Hin) as Hf. simpl in Hf.
  by rewrite bool_decide_eq_true_2 in Hf.
Qed.

Lemma extends_refl {A : Type} (l : list A) : extends l l.
Proof. exists []. split; [by rewrite app_nil_r | simpl; lia]. Qed.

Lemma extends_snoc {A : Type} (l : list A) (x : A) : extends l (l ++ [x]).
Proof. exists [x]. split; [done | simpl; lia]. Qed.

(** The Visitor stage: the row it returns is in the table and belongs
    to the pair; nothing else changes. *)
Lemma get_or_create_visitor_spec db now full_name email phone id_number :
  let out := get_or_create_visitor db now full_name email phone id_number in
  out.2 ∈ visitors out.1
  /\ same_visitor full_name email out.2
  /\ hosts out.1 = hosts db /\ hosts_id_seq out.1 = hosts_id_seq db
  /\ visit_logs out.1 = visit_logs db
  /\ visit_logs_id_seq out.1 = visit_logs_id_seq db
  /\ ((query_visitor db (Some full_name) email = Some out.2 /\ out.1 = db)
      \/ (query_visitor db (Some full_name) email = None
          /\ visitors out.1 = visitors db ++ [out.2]
          /\ visitors_id_seq out.1 = (visitors_id_seq db + 1)%Z
          /\ out.2 = Visitor.mk (visitors_id_seq db + 1) full_name email phone
                       id_number now)).
Proof.
  cbv zeta. unfold get_or_create_visitor.
  destruct (query_visitor db (Some full_name) email) as [v|] eqn:Hq; cbn.
  - apply query_visitor_Some in Hq as [Hin Hsame].
    do 6 (split; [done|]). by left.
  - split; [apply elem_of_app; right; apply list_elem_of_here|].
    do 5 (split; [done|]). by right.
Qed.

(** The Host stage. *)
Lemma get_or_create_host_spec db host_email :
  let out := get_or_create_host db host_email in
  out.2 ∈ hosts out.1
  /\ Host.email out.2 = host_email
  /\ visitors out.1 = visitors db /\ visitors_id_seq out.1 = visitors_id_seq db
  /\ visit_logs out.1 = visit_logs db
  /\ visit_logs_id_seq out.1 = visit_logs_id_seq db
  /\ ((query_host db (Some host_email) = Some out.2 /\ out.1 = db)
      \/ ((host_email ∉ Host.email <$> hosts db)
          /\ hosts out.1 = hosts db ++ [out.2]
          /\ hosts_id_seq out.1 = (hosts_id_seq db + 1)%Z
          /\ out.2 = Host.mk (hosts_id_seq db + 1) (split_head at_sign host_email)
                       host_email None None)).
Proof.
  cbv zeta. unfold get_or_create_host.
  destruct (query_host db (Some host_email)) as [h|] eqn:Hq; cbn.
  - apply query_host_Some in Hq as [Hin Hmail].
    do 6 (split; [done|]). by left.
  - apply query_host_None in Hq.
    split; [apply elem_of_app; right; apply list_elem_of_here|].
    do 5 (split; [done|]). by right.
Qed.

(** X8: how a finalize call ends, by its payload. Without a
    [full_name] key it is refused with status 400 and the database is
    untouched; a null [full_name] fails on the NOT NULL column and a
    missing or null [host_email] fails on [host_email.split], in both
    cases without a visit row. With a name and a host email it
    succeeds: it adds exactly one visit row, checked in and not checked
    out, that links a Visitor row of that name and email to a Host row
    of that email, and it returns these rows. *)
Theorem finalize_outcome (payload : gmap str (option str)) (t_visitor t_visit : Z)
    (db : Db) :
  let out := visitor_checkin_finalize payload t_visitor t_visit db in
  match payload !! py "full_name", payload_get payload (py "host_email") with
  | None, _ => out = (db, Raise (HTTPException 400))
  | Some None, _ =>
    out.2 = Raise IntegrityError
    /\ visitors out.1 = visitors db /\ hosts out.1 = hosts db
    /\ visit_logs out.1 = visit_logs db
  | Some (Some _), None =>
    out.2 = Raise AttributeError
    /\ hosts out.1 = hosts db /\ visit_logs out.1 = visit_logs db
  | Some (Some full_name), Some host_email =>
    exists o,
      out.2 = Ok o
      /\ VisitLogOut.visitor o ∈ visitors out.1
      /\ same_visitor full_name (payload_get payload (py "email"))
           (VisitLogOut.visitor o)
      /\ VisitLogOut.host o ∈ hosts out.1
      /\ Host.email (VisitLogOut.host o) = host_email
      /\ VisitLogOut.status o = py "checked_in"
      /\ VisitLogOut.check_out_time o = None
      /\ visit_logs out.1
         = visit_logs db
           ++ [VisitLog.mk (VisitLogOut.id o) (Visitor.id (VisitLogOut.visitor o))
                 (Host.id (VisitLogOut.host o))
                 (payload_get payload (py "purpose")) t_visit None
                 (py "checked_in")]
  end.
Proof.
  pose proof (finalize_stages payload t_visitor t_visit db) as H. cbv zeta in *.
  destruct (payload !! py "full_name") as [[full_name|]|].
  - pose proof (get_or_create_visitor_spec db t_visitor full_name
                  (payload_get payload (py "email"))
                  (payload_get payload (py "phone"))
                  (payload_get payload (py "id_number"))) as Hv.
    destruct (get_or_create_visitor _ _ _ _ _ _) as [db1 v]. cbn in Hv.
    destruct Hv as (Hvin & Hsame & Hh & _ & Hl & _ & _).
    destruct (payload_get payload (py "host_email")) as [he|].
    + pose proof (get_or_create_host_spec db1 he) as Hho.
      destruct (get_or_create_host db1 he) as [db2 h]. cbn in Hho.
      destruct Hho as (Hhin & Hmail & Hvs & _ & Hl2 & _ & _).
      unfold add_visit_log in H. rewrite H. cbn.
      eexists. split; [reflexivity|]. cbn.
      rewrite Hvs, Hl2, Hl. do 6 (split; [done|]). done.
    + rewrite H. by cbn.
  - rewrite H. by destruct (payload_get payload (py "host_email")).
  - by destruct (payload_get payload (py "host_email")).
Qed.

(** X9: finalize only appends. Each table keeps its rows as they
    were, unchanged and in place, with at most one row added behind
    them; a visit row is added exactly when the call succeeds. *)
Theorem finalize_append_only (payload : gmap str (option str))
    (t_visitor t_visit : Z) (db : Db) :
  let out := visitor_checkin_finalize payload t_visitor t_visit db in
  extends (visitors db) (visitors out.1)
  /\ extends (hosts db) (hosts out.1)
  /\ extends (visit_logs db) (visit_logs out.1)
  /\ match out.2 with
     | Ok _ => length (visit_logs out.1) = S (length (visit_logs db))
     | Raise _ => visit_logs out.1 = visit_logs db
     end.
Proof.
  pose proof (finalize_stages payload t_visitor t_visit db) as H. cbv zeta in *.
  destruct (payload !! py "full_name") as [[full_name|]|].
  - pose proof (get_or_create_visitor_spec db t_visitor full_name
                  (payload_get payload (py "email"))
                  (payload_get payload (py "phone"))
                  (payload_get payload (py "id_number"))) as Hv.
    destruct (get_or_create_visitor _ _ _ _ _ _) as [db1 v]. cbn in Hv.
    destruct Hv as (_ & _ & Hh & _ & Hl & _ & Hcase).
    assert (extends (visitors db) (visitors db1)) as Hev.
    { destruct Hcase as [[_ ->] | (_ & -> & _)];
        [apply extends_refl | apply extends_snoc]. }
    destruct (payload_get payload (py "host_email")) as [he|].
    + pose proof (get_or_create_host_spec db1 he) as Hho.
      destruct (get_or_create_host db1 he) as [db2 h]. cbn in Hho.
      destruct Hho as (_ & _ & Hvs & _ & Hl2 & _ & Hcase2).
      unfold add_visit_log in H. rewrite H. cbn.
      rewrite Hvs, Hl2, Hl. split; [done|]. split.
      * rewrite <- Hh. destruct Hcase2 as [[_ ->] | (_ & -> & _)];
          [apply extends_refl | apply extends_snoc].
      * split; [apply extends_snoc|]. rewrite length_app. simpl. lia.
    + rewrite H. cbn. rewrite Hh, Hl.
      split; [done|]. split; [apply extends_refl|]. split; [apply extends_refl|done].
  - rewrite H. cbn. repeat split; apply extends_refl.
  - rewrite H. cbn. repeat split; apply extends_refl.
Qed.

Lemma NoDup_snoc {A : Type} (l : list A) (x : A) :
  NoDup l -> x ∉ l -> NoDup (l ++ [x]).
Proof.
  intros Hl Hx. apply NoDup_app. split; [done|]. split.
  - intros y Hy Hin. apply list_elem_of_singleton in Hin. by subst.
  - apply NoDup_singleton.
Qed.

Lemma keys_ok_snoc (ids : list Z) (seq : Z) :
  keys_ok ids seq -> keys_ok (ids ++ [(seq + 1)%Z]) (seq + 1).
Proof.
  intros [Hnd Hle]. split.
  - apply NoDup_snoc; [done|]. intros Hin.
    rewrite Forall_forall in Hle. specialize (Hle _ Hin). lia.
  - apply Forall_app. split.
    + eapply Forall_impl; [exact Hle|]. intros i Hi. simpl in Hi. lia.
    + constructor; [lia | constructor].
Qed.

Lemma keys_ok_bump (ids : list Z) (seq : Z) :
  keys_ok ids seq -> keys_ok ids (seq + 1).
Proof.
  intros [Hnd Hle]. split; [done|].
  eapply Forall_impl; [exact Hle|]. intros i Hi. simpl in Hi. lia.
Qed.

Lemma refs_mono (logs : list VisitLog.t) (vs vs' hs hs' : list Z) :
  (forall i, i ∈ vs -> i ∈ vs') -> (forall i, i ∈ hs -> i ∈ hs') ->
  Forall (fun l => VisitLog.visitor_id l ∈ vs /\ VisitLog.host_id l ∈ hs) logs ->
  Forall (fun l => VisitLog.visitor_id l ∈ vs' /\ VisitLog.host_id l ∈ hs') logs.
Proof.
  intros Hv Hh H. eapply Forall_impl; [exact H|].
  intros l [H1 H2]. split; auto.
Qed.

Lemma get_or_create_visitor_db_ok db now full_name email phone id_number :
  db_ok db ->
  db_ok (get_or_create_visitor db now full_name email phone id_number).1.
Proof.
  intros (Hv & Hh & Hl & He & Hr). unfold get_or_create_visitor.
  destruct (query_visitor db (Some full_name) email) as [v|]; cbn; [done|].
  split; [|split; [done|split; [done|split; [done|]]]]; cbn.
  - rewrite fmap_app. by apply keys_ok_snoc.
  - eapply refs_mono; [| |exact Hr]; [|done].
    intros i Hi. rewrite fmap_app. apply elem_of_app. by left.
Qed.

Lemma get_or_create_host_db_ok db host_email :
  db_ok db -> db_ok (get_or_create_host db host_email).1.
Proof.
  intros (Hv & Hh & Hl & He & Hr). unfold get_or_create_host.
  destruct (query_host db (Some host_email)) as [h|] eqn:Hq; cbn; [done|].
  apply query_host_None in Hq.
  split; [done|split; [|split; [done|split]]]; cbn.
  - rewrite fmap_app. by apply keys_ok_snoc.
  - rewrite fmap_app. by apply NoDup_snoc.
  - eapply refs_mono; [| |exact Hr]; [done|].
    intros i Hi. rewrite fmap_app. apply elem_of_app. by left.
Qed.

Lemma add_visit_log_db_ok db now (v : Visitor.t) (h : Host.t) purpose status :
  db_ok db -> v ∈ visitors db -> h ∈ hosts db ->
  db_ok (add_visit_log db now (Visitor.id v) (Host.id h) purpose status).1.
Proof.
  intros (Hv & Hh & Hl & He & Hr) Hvin Hhin. unfold add_visit_log. cbn.
  split; [done|split; [done|split; [|split; [done|]]]]; cbn.
  - rewrite fmap_app. by apply keys_ok_snoc.
  - apply Forall_app. split; [done|]. constructor; [|constructor]. cbn.
    split; by apply list_elem_of_fmap_2.
Qed.

(** X10: finalize keeps the constraints of the schema. If primary keys
    are distinct and drawn from their sequences, host emails are
    distinct, and every visit row refers to a Visitor row and a Host row
    of the database, the same holds after the call, however it ends. *)
Theorem finalize_preserves_db_ok (payload : gmap str (option str))
    (t_visitor t_visit : Z) (db : Db) :
  db_ok db ->
  db_ok (visitor_checkin_finalize payload t_visitor t_visit db).1.
Proof.
  intros Hok.
  pose proof (finalize_stages payload t_visitor t_visit db) as H. cbv zeta in H.
  destruct (payload !! py "full_name") as [[full_name|]|].
  - pose proof (get_or_create_visitor_db_ok db t_visitor full_name
                  (payload_get payload (py "email"))
                  (payload_get payload (py "phone"))
                  (payload_get payload (py "id_number")) Hok) as Hok1.
    pose proof (get_or_create_visitor_spec db t_visitor full_name
                  (payload_get payload (py "email"))
                  (payload_get payload (py "phone"))
                  (payload_get payload (py "id_number"))) as Hv.
    destruct (get_or_create_visitor _ _ _ _ _ _) as [db1 v]. cbn in Hv, Hok1.
    destruct Hv as (Hvin & _).
    destruct (payload_get payload (py "host_email")) as [he|].
    + pose proof (get_or_create_host_db_ok db1 he Hok1) as Hok2.
      pose proof (get_or_create_host_spec db1 he) as Hho.
      destruct (get_or_create_host db1 he) as [db2 h]. cbn in Hho, Hok2.
      destruct Hho as (Hhin & _ & Hvs & _).
      rewrite <- Hvs in Hvin.
      pose proof (add_visit_log_db_ok db2 t_visit v h
                    (payload_get payload (py "purpose")) (py "checked_in")
                    Hok2 Hvin Hhin) as Hok3.
      destruct (add_visit_log db2 _ _ _ _ _) as [db3 l]. by rewrite H.
    + by rewrite H.
  - rewrite H. destruct Hok as (Hv & Hrest). split; [|exact Hrest].
    by apply keys_ok_bump.
  - by rewrite H.
Qed.

Lemma finalize_preserves_db_ok_witness :
  let payload : gmap str (option str) :=
    list_to_map
      [ (py "full_name", Some (py "Alice Smith"));
        (py "email", Some (py "alice@example.com"));
        (py "host_email", Some (py "bob@example.com"));
        (py "purpose", Some (py "Meeting")) ] in
  let db := mk_db [] 0 [] 0 [] 0 in
  db_ok db
  /\ db_ok (visitor_checkin_finalize payload 10 11 db).1
  /\ db_ok (visitor_checkin_finalize payload 20 21
              (visitor_checkin_finalize payload 10 11 db).1).1.
Proof.
  cbv zeta.
  assert (db_ok (mk_db [] 0 [] 0 [] 0)) as H0.
  { unfold db_ok, keys_ok. cbn. repeat split; constructor. }
  split; [exact H0|]. split.
  - exact (finalize_preserves_db_ok _ 10 11 _ H0).
  - exact (finalize_preserves_db_ok _ 20 21 _
             (finalize_preserves_db_ok _ 10 11 _ H0)).
Defined.

(** [s.split(sep)[0]] is the part of [s] before its first [sep]. *)
Lemma split_head_spec (sep : char) (s : str) :
  (sep ∉ split_head sep s)
  /\ (s = split_head sep s \/ exists rest, s = split_head sep s ++ sep :: rest).
Proof.
  induction s as [|c s [IH1 IH2]]; simpl.
  - split; [apply not_elem_of_nil | by left].
  - destruct (N.eqb_spec c sep) as [->|Hne].
    + split; [apply not_elem_of_nil|]. right. by exists s.
    + split.
      * apply not_elem_of_cons. split; [congruence | done].
      * destruct IH2 as [IH2 | [rest IH2]].
        -- left. congruence.
        -- right. exists rest. simpl. congruence.
Qed.

(** A successful call, seen from the hosts table: the Host row it
    returns was found by its email or is the one row it added, and the
    visit row it adds carries the id of that Host row. *)
Lemma finalize_host_rows (payload : gmap str (option str)) (t_visitor t_visit : Z)
    (db : Db) (name host_email : str) :
  payload !! py "full_name" = Some (Some name) ->
  payload_get payload (py "host_email") = Some host_email ->
  let out := visitor_checkin_finalize payload t_visitor t_visit db in
  exists h o l,
    out.2 = Ok o /\ VisitLogOut.host o = h /\ Host.email h = host_email
    /\ visit_logs out.1 = visit_logs db ++ [l]
    /\ VisitLog.host_id l = Host.id h /\ VisitLog.id l = VisitLogOut.id o
    /\ ((query_host db (Some host_email) = Some h /\ hosts out.1 = hosts db)
        \/ ((host_email ∉ Host.email <$> hosts db)
            /\ hosts out.1 = hosts db ++ [h]
            /\ h = Host.mk (hosts_id_seq db + 1) (split_head at_sign host_email)
                     host_email None None)).
Proof.
  intros Hn Hh. cbv zeta.
  pose proof (finalize_stages payload t_visitor t_visit db) as H. cbv zeta in H.
  rewrite Hn, Hh in H.
  pose proof (get_or_create_visitor_spec db t_visitor name
                (payload_get payload (py "email"))
                (payload_get payload (py "phone"))
                (payload_get payload (py "id_number"))) as Hv.
  destruct (get_or_create_visitor _ _ _ _ _ _) as [db1 v]. cbn in Hv.
  destruct Hv as (_ & _ & Hhs1 & Hseq1 & Hl1 & _).
  pose proof (get_or_create_host_spec db1 host_email) as Hg.
  destruct (get_or_create_host db1 host_email) as [db2 h]. cbn in Hg.
  destruct Hg as (_ & Hmail & _ & _ & Hl2 & _ & Hcase).
  unfold add_visit_log in H. rewrite H. cbn [fst snd].
  eexists h, _, _. split; [reflexivity|].
  cbn [VisitLogOut.host VisitLogOut.id visit_logs hosts VisitLog.host_id VisitLog.id].
  do 2 (split; [done|]). split; [by rewrite Hl2, Hl1|]. do 2 (split; [done|]).
  destruct Hcase as [[Hq ->] | (Hnot & Hadd & _ & Hrow)].
  - left. split; [|done]. unfold query_host in *. by rewrite <- Hhs1.
  - right. rewrite Hhs1 in Hnot, Hadd. rewrite Hseq1 in Hrow.
    split; [done|]. by split.
Qed.

(** X11: hosts are got or created by email. A successful call for a
    host email that has no row adds one Host row with that email, named
    by the part of the email before its first '@'; a following call
    with the same host email, for whatever visitor, adds no Host row,
    and both visits are linked to that row: each call adds one visit
    row whose [host_id] is the id of that Host row. *)
Theorem finalize_get_or_create_host
    (db : Db) (payload1 payload2 : gmap str (option str))
    (t1 t1' t2 t2' : Z) (name1 name2 host_email : str) :
  payload1 !! py "full_name" = Some (Some name1) ->
  payload_get payload1 (py "host_email") = Some host_email ->
  payload2 !! py "full_name" = Some (Some name2) ->
  payload_get payload2 (py "host_email") = Some host_email ->
  host_email ∉ Host.email <$> hosts db ->
  let out1 := visitor_checkin_finalize payload1 t1 t1' db in
  let out2 := visitor_checkin_finalize payload2 t2 t2' out1.1 in
  exists h o1 o2 l1 l2,
    hosts out1.1 = hosts db ++ [h]
    /\ Host.email h = host_email
    /\ Host.full_name h = split_head at_sign host_email
    /\ (at_sign ∉ Host.full_name h)
    /\ hosts out2.1 = hosts out1.1
    /\ out1.2 = Ok o1 /\ VisitLogOut.host o1 = h
    /\ out2.2 = Ok o2 /\ VisitLogOut.host o2 = h
    /\ visit_logs out1.1 = visit_logs db ++ [l1]
    /\ VisitLog.host_id l1 = Host.id h /\ VisitLog.id l1 = VisitLogOut.id o1
    /\ visit_logs out2.1 = visit_logs db ++ [l1; l2]
    /\ VisitLog.host_id l2 = Host.id h /\ VisitLog.id l2 = VisitLogOut.id o2.
Proof.
  intros Hn1 Hh1 Hn2 Hh2 Hnew. cbv zeta.
  destruct (finalize_host_rows payload1 t1 t1' db name1 host_email Hn1 Hh1)
    as (h & o1 & l1 & Ho1 & Hho1 & Hmail & Hlog1 & Hid1 & Hlid1 & Hcase1).
  destruct (visitor_checkin_finalize payload1 t1 t1' db) as [db1 res1].
  cbn [fst snd] in *.
  destruct Hcase1 as [[Hq _] | (_ & Hadd & Hrow)].
  { apply query_host_Some in Hq as [Hin _].
    exfalso. apply Hnew. rewrite <- Hmail. by apply list_elem_of_fmap_2. }
  destruct (finalize_host_rows payload2 t2 t2' db1 name2 host_email Hn2 Hh2)
    as (h' & o2 & l2 & Ho2 & Hho2 & Hmail' & Hlog2 & Hid2 & Hlid2 & Hcase2).
  destruct (visitor_checkin_finalize payload2 t2 t2' db1) as [db2 res2].
  cbn [fst snd] in *.
  destruct Hcase2 as [[Hq Hsame] | (Hnot & _)].
  - apply query_host_Some in Hq as [Hin _]. rewrite Hadd in Hin.
    apply elem_of_app in Hin as [Hin | Hin%list_elem_of_singleton].
    { exfalso. apply Hnew. rewrite <- Hmail'. by apply list_elem_of_fmap_2. }
    subst h'. exists h, o1, o2, l1, l2.
    do 2 (split; [done|]). split; [by rewrite Hrow|].
    split; [rewrite Hrow; apply split_head_spec|].
    do 8 (split; [done|]).
    split; [by rewrite Hlog2, Hlog1, <- app_assoc|].
    split; [by rewrite Hid2, Hin | done].
  - exfalso. apply Hnot. rewrite Hadd, fmap_app.
    apply elem_of_app. right. rewrite <- Hmail. apply list_elem_of_here.
Qed.

Lemma finalize_get_or_create_host_witness :
  let db := mk_db [] 0 [] 0 [] 0 in
  let payload1 : gmap str (option str) :=
    list_to_map
      [ (py "full_name", Some (py "Alice Smith"));
        (py "host_email", Some (py "bob@example.com")) ] in
  let payload2 : gmap str (option str) :=
    list_to_map
      [ (py "full_name", Some (py "Dan Brown"));
        (py "host_email", Some (py "bob@example.com")) ] in
  let out1 := visitor_checkin_finalize payload1 10 11 db in
  let out2 := visitor_checkin_finalize payload2 20 21 out1.1 in
  (payload1 !! py "full_name" = Some (Some (py "Alice Smith"))
   /\ payload_get payload1 (py "host_email") = Some (py "bob@example.com")
   /\ payload2 !! py "full_name" = Some (Some (py "Dan Brown"))
   /\ payload_get payload2 (py "host_email") = Some (py "bob@example.com")
   /\ (py "bob@example.com" ∉ Host.email <$> hosts db))
  /\ hosts out2.1 = [Host.mk 1 (py "bob") (py "bob@example.com") None None]
  /\ visit_logs out2.1
     = [ VisitLog.mk 1 1 1 None 11 None (py "checked_in");
         VisitLog.mk 2 2 1 None 21 None (py "checked_in") ]
  /\ exists h o1 o2 l1 l2,
      hosts out1.1 = hosts db ++ [h]
      /\ Host.email h = py "bob@example.com"
      /\ Host.full_name h = split_head at_sign (py "bob@example.com")
      /\ (at_sign ∉ Host.full_name h)
      /\ hosts out2.1 = hosts out1.1
      /\ out1.2 = Ok o1 /\ VisitLogOut.host o1 = h
      /\ out2.2 = Ok o2 /\ VisitLogOut.host o2 = h
      /\ visit_logs out1.1 = visit_logs db ++ [l1]
      /\ VisitLog.host_id l1 = Host.id h /\ VisitLog.id l1 = VisitLogOut.id o1
      /\ visit_logs out2.1 = visit_logs db ++ [l1; l2]
      /\ VisitLog.host_id l2 = Host.id h /\ VisitLog.id l2 = VisitLogOut.id o2.
Proof.
  cbv zeta.
  split.
  { repeat (split; [vm_compute; reflexivity|]). apply not_elem_of_nil. }
  split; [vm_compute; reflexivity|].
  split; [vm_compute; reflexivity|].
  apply (finalize_get_or_create_host _ _ _ 10 11 20 21
           (py "Alice Smith") (py "Dan Brown")).
  - vm_compute; reflexivity.
  - vm_compute; reflexivity.
  - vm_compute; reflexivity.
  - vm_compute; reflexivity.
  - apply not_elem_of_nil.
Defined.

(** X12: a failed finalize is not undone. For a name and email that
    have no Visitor row and a payload without a host email, the call
    fails on [host_email.split], yet the new Visitor row stays in the
    database; no Host row and no visit row are written. *)
Theorem finalize_failure_keeps_visitor
    (db : Db) (payload : gmap str (option str)) (t_visitor t_visit : Z)
    (full_name : str) :
  payload !! py "full_name" = Some (Some full_name) ->
  payload_get payload (py "host_email") = None ->
  Forall (fun v => ~ same_visitor full_name (payload_get payload (py "email")) v)
    (visitors db) ->
  let out := visitor_checkin_finalize payload t_visitor t_visit db in
  out.2 = Raise AttributeError
  /\ visitors out.1
     = visitors db
       ++ [Visitor.mk (visitors_id_seq db + 1) full_name
             (payload_get payload (py "email")) (payload_get payload (py "phone"))
             (payload_get payload (py "id_number")) t_visitor]
  /\ hosts out.1 = hosts db
  /\ visit_logs out.1 = visit_logs db.
Proof.
  intros Hn Hh Hnew%query_visitor_None. cbv zeta.
  pose proof (finalize_stages payload t_visitor t_visit db) as H. cbv zeta in H.
  rewrite Hn, Hh in H. unfold get_or_create_visitor in H. rewrite Hnew in H.
  by rewrite H.
Qed.

Lemma finalize_failure_keeps_visitor_witness :
  let db := mk_db [] 0 [] 0 [] 0 in
  let payload : gmap str (option str) :=
    list_to_map
      [ (py "full_name", Some (py "Alice Smith"));
        (py "email", Some (py "alice@example.com"));
        (py "host_email", None) ] in
  let out := visitor_checkin_finalize payload 10 11 db in
  (payload !! py "full_name" = Some (Some (py "Alice Smith"))
   /\ payload_get payload (py "host_email") = None)
  /\ out.2 = Raise AttributeError
  /\ visitors out.1
     = visitors db
       ++ [Visitor.mk (visitors_id_seq db + 1) (py "Alice Smith")
             (payload_get payload (py "email")) (payload_get payload (py "phone"))
             (payload_get payload (py "id_number")) 10]
  /\ hosts out.1 = hosts db
  /\ visit_logs out.1 = visit_logs db.
Proof.
  cbv zeta. split; [split; vm_compute; reflexivity|].
  apply (finalize_failure_keeps_visitor _ _ 10 11 (py "Alice Smith")).
  - vm_compute; reflexivity.
  - vm_compute; reflexivity.
  - constructor.
Defined.

(** ** The notification stub *)



(** ** The OCR adapter and its handler *)

Lemma linebreak_is_space (c : char) :
  is_linebreak c = true -> Py_UNICODE_ISSPACE c = true.
Proof.
  unfold is_linebreak, Py_UNICODE_ISSPACE.
  rewrite !orb_true_iff, !andb_true_iff, !N.leb_le, !N.eqb_eq. lia.
Qed.

(** The lines [splitlines] gives hold no boundary and only characters of
    the text, and every character of the text that is no boundary is in
    one of them. *)
Lemma splitlines_from_spec (s line : str) :
  Forall (fun c => is_linebreak c = false) line ->
  Forall (fun l => Forall (fun c => is_linebreak c = false) l
                   /\ forall c, c ∈ l -> c ∈ line \/ c ∈ s)
    (splitlines_from line s)
  /\ forall c, c ∈ line \/ (c ∈ s /\ is_linebreak c = false) ->
               exists l, l ∈ splitlines_from line s /\ c ∈ l.
Proof.
  remember (length s) as n eqn:Hn. revert s line Hn.
  induction n as [n IH] using lt_wf_ind. intros s line Hn Hline.
  assert (Forall (fun c => is_linebreak c = false) (rev line)) as Hrev.
  { rewrite Forall_forall in *. intros c Hc. by apply Hline, elem_of_rev. }
  assert (forall c, c ∈ rev line -> c ∈ line) as Hsub
    by (intros c Hc; by apply elem_of_rev).
  destruct s as [|c s]; simpl.
  - destruct line as [|a line].
    + split; [constructor|]. intros c [Hc | [Hc _]]; by inversion Hc.
    + split.
      * constructor; [|constructor]. split; [done|]. intros c Hc. left. auto.
      * intros c [Hc | [Hc _]]; [|by inversion Hc].
        exists (rev (a :: line)). split; [apply list_elem_of_here|].
        by apply elem_of_rev.
  - destruct (is_linebreak c) eqn:Hlb.
    + assert (exists rest,
                match s with
                | d :: s'' =>
                  if (c =? 13) && (d =? 10) then splitlines_from [] s''
                  else splitlines_from [] s
                | [] => splitlines_from [] s
                end = splitlines_from [] rest
                /\ (length rest < n)%nat
                /\ (forall x, x ∈ rest -> x ∈ s)
                /\ (forall x, x ∈ s -> is_linebreak x = false -> x ∈ rest))
        as (rest & -> & Hlt & Hin & Hcov).
      { destruct s as [|d s'']; [exists []; simpl in *; split; [done|]; split; [lia|done]|].
        destruct ((c =? 13) && (d =? 10)) eqn:Hcrlf.
        - exists s''. split; [done|]. split; [simpl in *; lia|]. split.
          + intros x Hx. by apply list_elem_of_further.
          + intros x [->|Hx]%elem_of_cons Hx'; [|done].
            apply andb_true_iff in Hcrlf as [_ ->%N.eqb_eq]. discriminate.
        - exists (d :: s''). split; [done|]. split; [simpl in *; lia|done]. }
      destruct (IH _ Hlt rest [] eq_refl (Forall_nil_2 _)) as [IH1 IH2].
      split.
      * constructor.
        -- split; [done|]. intros x Hx. left. auto.
        -- eapply Forall_impl; [exact IH1|]. intros l [Hl1 Hl2]. split; [done|].
           intros x Hx. destruct (Hl2 x Hx) as [Hn'|Hr]; [by inversion Hn'|].
           right. apply list_elem_of_further. auto.
      * intros x [Hx | [Hx Hxlb]].
        -- exists (rev line). split; [apply list_elem_of_here|]. by apply elem_of_rev.
        -- apply elem_of_cons in Hx as [->|Hx]; [congruence|].
           destruct (IH2 x) as (l & Hl & Hxl); [right; split; auto|].
           exists l. split; [by apply list_elem_of_further | done].
    + assert (length s < n)%nat as Hlt by (simpl in Hn; lia).
      destruct (IH _ Hlt s (c :: line) eq_refl) as [IH1 IH2]; [by constructor|].
      split.
      * eapply Forall_impl; [exact IH1|]. intros l [Hl1 Hl2]. split; [done|].
        intros x Hx. destruct (Hl2 x Hx) as [[->|Hl]%elem_of_cons | Hr].
        -- right. apply list_elem_of_here.
        -- by left.
        -- right. by apply list_elem_of_further.
      * intros x [Hx | [Hx Hxlb]].
        -- apply IH2. left. by apply list_elem_of_further.
        -- apply elem_of_cons in Hx as [->|Hx].
           ++ apply IH2. left. apply list_elem_of_here.
           ++ apply IH2. by right.
Qed.

(** X14: the lines the OCR adapter reports. Every line is non-empty,
    neither begins nor ends with whitespace, holds no line boundary and
    only characters of the recognised text; and there is no line at all
    exactly when the text is whitespace throughout. *)
Theorem ocr_lines_spec (text : str) :
  Forall (fun l => l <> [] /\ trimmed l
                   /\ Forall (fun c => is_linebreak c = false) l
                   /\ forall c, c ∈ l -> c ∈ text)
    (ocr_lines text)
  /\ (ocr_lines text = [] <-> all_space text).
Proof.
  destruct (splitlines_from_spec text [] (Forall_nil_2 _)) as [Hlines Hcover].
  fold (splitlines text) in Hlines, Hcover.
  rewrite Forall_forall in Hlines.
  split; [|split].
  - unfold ocr_lines. apply Forall_forall. intros l Hl.
    apply list_elem_of_In, filter_In in Hl as [Hl Hne].
    apply in_map_iff in Hl as (l0 & <- & Hl0).
    apply list_elem_of_In in Hl0.
    destruct (Hlines l0 Hl0) as [Hnolb Hsub].
    split; [by apply str_bool_true|]. split; [apply strip_trimmed|]. split.
    + rewrite Forall_forall in *. intros c Hc. by apply Hnolb, strip_subset.
    + intros c Hc. destruct (Hsub c (strip_subset _ _ Hc)) as [Hn|]; [by inversion Hn|done].
  - intros Hnil. unfold all_space. apply Forall_forall. intros c Hc.
    destruct (Py_UNICODE_ISSPACE c) eqn:Hsp; [done|]. exfalso.
    assert (is_linebreak c = false) as Hlb.
    { destruct (is_linebreak c) eqn:Hlb; [|done].
      apply linebreak_is_space in Hlb. congruence. }
    destruct (Hcover c) as (l & Hl & Hcl); [by right|].
    assert (In (strip l) (ocr_lines text)) as Hin.
    { unfold ocr_lines. apply filter_In. split.
      - apply in_map. by apply list_elem_of_In.
      - apply str_bool_true. intros Hs.
        pose proof (strip_keeps c l Hsp Hcl) as Hk. rewrite Hs in Hk.
        by inversion Hk. }
    by rewrite Hnil in Hin.
  - intros Hall. unfold ocr_lines.
    destruct (List.filter str_bool (map strip (splitlines text))) as [|l ls] eqn:Hf;
      [done|]. exfalso.
    assert (In l (List.filter str_bool (map strip (splitlines text)))) as Hin
      by (rewrite Hf; by left).
    apply filter_In in Hin as [Hl Hne].
    apply in_map_iff in Hl as (l0 & <- & Hl0). apply list_elem_of_In in Hl0.
    destruct (Hlines l0 Hl0) as [_ Hsub].
    apply str_bool_true in Hne. apply Hne, strip_nil_iff.
    unfold all_space in *. rewrite Forall_forall in *. intros c Hc.
    apply Hall. destruct (Hsub c Hc) as [Hn|]; [by inversion Hn|done].
Qed.

Example ocr_lines_card :
  ocr_lines (py "  JANE DOE " ++ [13; 10; 10] ++ py "ID 12345" ++ [10; 32; 9])
  = [py "JANE DOE"; py "ID 12345"].
Proof. reflexivity. Qed.

(** X15: the OCR handler never passes a failure of the adapter on. The
    response has status "fallback", with the three demo fields and the
    adapter's error text as message, exactly when the library is missing
    or raises; otherwise it has status "success" and carries the
    recognised text unchanged with its lines. It has no "error" entry
    either way. *)
Theorem upload_id_ocr_spec (pytesseract : option (bytes -> str + str))
    (file : UploadFile) :
  let out := upload_id_ocr pytesseract file in
  let outcome :=
    match pytesseract with
    | None => inl (py "OCR library not installed")
    | Some image_to_string => image_to_string (content file)
    end in
  dict_in (py "error") out = false
  /\ dict_item (py "filename") out = Some (of_opt_str (filename file))
  /\ match outcome with
     | inl message =>
       dict_item (py "status") out = Some (PStr (py "fallback"))
       /\ dict_item (py "message") out = Some (PStr message)
       /\ dict_item (py "ocr_fields") out
          = Some (PDict [ (py "full_name", PStr (py "Demo Person"));
                          (py "id_number", PStr (py "ID123456789"));
                          (py "dob", PStr (py "1990-01-01")) ])
     | inr text =>
       dict_item (py "status") out = Some (PStr (py "success"))
       /\ dict_item (py "message") out = None
       /\ dict_item (py "ocr_fields") out
          = Some (PDict [ (py "ocr_text", PStr text);
                          (py "lines", PList (PStr <$> ocr_lines text)) ])
     end.
Proof.
  cbv zeta. unfold upload_id_ocr, perform_ocr_on_image.
  destruct pytesseract as [image_to_string|].
  - destruct (image_to_string (content file)) as [ex|text].
    + change (dict_in (py "error") [(py "error", PStr ex)]) with true.
      cbv iota zeta. repeat split; reflexivity.
    + change (dict_in (py "error")
                [(py "ocr_text", PStr text);
                 (py "lines", PList (PStr <$> ocr_lines text))]) with false.
      cbv iota zeta. repeat split; reflexivity.
  - change (dict_in (py "error")
              [(py "error", PStr (py "OCR library not installed"))]) with true.
    cbv iota zeta. repeat split; reflexivity.
Qed.

(** ** The speech handlers *)

(** X16: the STT handler always answers with a transcript. Whatever the
    adapter does, the response has exactly the entries [transcript],
    [language] and [filename], in this order, and no "error" entry. When
    the adapter fails the transcript is the dummy sentence around the
    error text and the language is the caller's own, null included;
    when it succeeds the language is the caller's or, for a null or
    empty one, "en-US". *)
Theorem speech_to_text_stub_spec (sr : option (bytes -> str -> str + str))
    (file : UploadFile) (language : option str) :
  let out := speech_to_text_stub sr file language in
  let used := or_default language (py "en-US") in
  let outcome :=
    match sr with
    | None => inl (py "SpeechRecognition not installed")
    | Some recognize => recognize (content file) used
    end in
  out.*1 = [py "transcript"; py "language"; py "filename"]
  /\ used <> []
  /\ dict_item (py "filename") out = Some (of_opt_str (filename file))
  /\ match outcome with
     | inr transcript =>
       dict_item (py "transcript") out = Some (PStr transcript)
       /\ dict_item (py "language") out = Some (PStr used)
     | inl ex =>
       dict_item (py "transcript") out
       = Some (PStr (py "This is a dummy transcript of the audio (could not perform real STT: "
                       ++ ex ++ py ")"))
       /\ dict_item (py "language") out = Some (of_opt_str language)
     end.
Proof.
  cbv zeta. unfold speech_to_text_stub, perform_speech_to_text.
  assert (or_default language (py "en-US") <> []) as Hused
    by (by destruct language as [[|c l]|]).
  destruct sr as [recognize|].
  - destruct (recognize (content file) _) as [ex|transcript].
    + change (dict_in (py "error") [(py "error", PStr ex)]) with true.
      cbv iota zeta. repeat split; try reflexivity; done.
    + match goal with
      | |- context [dict_in ?k ?d] => change (dict_in k d) with false
      end.
      cbv iota zeta. repeat split; try reflexivity; done.
  - change (dict_in (py "error")
              [(py "error", PStr (py "SpeechRecognition not installed"))]) with true.
    cbv iota zeta. repeat split; try reflexivity; done.
Qed.

(** X17: the TTS handler never streams an empty body. The body is the
    adapter's audio when there is some, and otherwise the built-in
    silent WAV: 44 bytes, a RIFF/WAVE header whose size field counts
    the bytes after it, a 16-byte "fmt " block of PCM format for one
    channel of 16-bit samples at 44100 Hz, with block size 2 and byte
    rate 88200 as these require, and a "data" block of length zero. *)
Theorem text_to_speech_stub_spec (pyttsx3 : option (str -> option bytes))
    (text : str) (language : option str) :
  let body := text_to_speech_stub pyttsx3 text language in
  body <> []
  /\ (forall speak data, pyttsx3 = Some speak -> speak text = Some data ->
        data <> [] -> body = data)
  /\ ((pyttsx3 = None \/ exists speak, pyttsx3 = Some speak
                         /\ (speak text = None \/ speak text = Some [])) ->
      body = silent_wav)
  /\ length silent_wav = 44%nat
  /\ take 4 silent_wav = [Init.Byte.x52; Init.Byte.x49; Init.Byte.x46; Init.Byte.x46]
  /\ le_field silent_wav 4 4 = N.of_nat (length silent_wav) - 8
  /\ le_field silent_wav 16 4 = 16 /\ le_field silent_wav 20 2 = 1
  /\ le_field silent_wav 24 4 = 44100
  /\ le_field silent_wav 32 2
     = le_field silent_wav 22 2 * le_field silent_wav 34 2 / 8
  /\ le_field silent_wav 28 4 = le_field silent_wav 24 4 * le_field silent_wav 32 2
  /\ le_field silent_wav 40 4 = N.of_nat (length silent_wav) - 44
  /\ le_field silent_wav 22 2 = 1 /\ le_field silent_wav 34 2 = 16
  /\ le_field silent_wav 32 2 = 2 /\ le_field silent_wav 28 4 = 88200
  /\ le_field silent_wav 40 4 = 0
  /\ take 4 (drop 8 silent_wav)
     = [Init.Byte.x57; Init.Byte.x41; Init.Byte.x56; Init.Byte.x45]
  /\ take 4 (drop 12 silent_wav)
     = [Init.Byte.x66; Init.Byte.x6d; Init.Byte.x74; Init.Byte.x20]
  /\ take 4 (drop 36 silent_wav)
     = [Init.Byte.x64; Init.Byte.x61; Init.Byte.x74; Init.Byte.x61].
Proof.
  cbv zeta. unfold text_to_speech_stub, perform_text_to_speech.
  split; [|split; [|split]].
  - destruct pyttsx3 as [speak|]; [|done].
    by destruct (speak text) as [[|b data]|].
  - intros speak data -> -> Hdata. by destruct data.
  - intros [-> | (speak & -> & [-> | ->])]; reflexivity.
  - repeat split; by vm_compute.
Qed.

(** ** Interviews from any state *)

Lemma first_missing_agree (l : list (str * str)) (st1 st2 : gmap str str) :
  Forall (fun fp => opt_bool (st1 !! fp.1) = opt_bool (st2 !! fp.1)) l ->
  first_missing l st1 = first_missing l st2.
Proof.
  unfold first_missing. induction 1 as [|[g q] l Hg _ IH]; [done|].
  cbn [find fst] in *. by rewrite Hg, IH.
Qed.

(** X18: an interview started from any state is over after as many
    answers as the state has unanswered fields. If every input is
    non-empty once trimmed and there are as many inputs as unanswered
    fields, every call returns a response, the response to the i-th
    input leaves that many fewer fields unanswered, and it is complete
    exactly when it answers the last input. *)
Theorem interview_completes (mode : str) (st : gmap str str) (inputs : list str) :
  Forall (fun user_input => strip user_input <> []) inputs ->
  length inputs = length (missing_fields st) ->
  exists rs,
    interview mode st inputs = Ok <$> rs
    /\ length rs = length inputs
    /\ forall i r, rs !! i = Some r ->
         length (missing_fields (StepResponse.conversation_state r))
         = (length inputs - S i)%nat
         /\ (StepResponse.is_complete r = true <-> S i = length inputs).
Proof.
  intros Hin. revert st. induction Hin as [|inp rest Hraw _ IH]; intros st Hlen.
  { exists []. by repeat split. }
  cbn [length] in Hlen. unfold missing_fields in Hlen.
  destruct (first_missing expected_fields_order st) as [[f p]|] eqn:Hf; cycle 1.
  { apply first_missing_filter in Hf. rewrite Hf in Hlen. discriminate. }
  pose proof Hf as (_ & _ & _ & _ & Hun)%first_missing_Some.
  pose proof (missing_insert_in expected_fields_order st f (strip inp) Hraw
                expected_fields_NoDup (first_missing_key _ _ _ _ Hf) Hun) as Hcount.
  rewrite <- Hcount in Hlen. apply Nat.succ_inj in Hlen.
  pose proof (step_assign_eq st inp mode f p Hf Hraw) as Hstep. cbv zeta in Hstep.
  pose proof (first_missing_filter expected_fields_order (<[f:=strip inp]> st))
    as Hnone.
  set (r := match first_missing expected_fields_order (<[f:=strip inp]> st) with
            | Some (field, prompt) => _
            | None => _
            end) in Hstep.
  assert (StepResponse.conversation_state r = <[f:=strip inp]> st) as Hst.
  { subst r. by destruct (first_missing _ (<[f:=strip inp]> st)) as [[? ?]|]. }
  assert (StepResponse.is_complete r = true <-> rest = []) as Hc.
  { subst r. destruct (first_missing _ (<[f:=strip inp]> st)) as [[g q]|] eqn:Hg;
      cbn [StepResponse.is_complete].
    - split; [done|]. intros ->. cbn [length] in Hlen. symmetry in Hlen.
      apply length_zero_iff_nil in Hlen. apply Hnone in Hlen. congruence.
    - split; [|done]. intros _. rewrite (proj1 Hnone eq_refl) in Hlen.
      by apply length_zero_iff_nil. }
  destruct (IH (StepResponse.conversation_state r)) as (rs & Hrs & Hlrs & Hall).
  { rewrite Hst. exact Hlen. }
  exists (r :: rs). cbn [interview]. rewrite Hstep, Hrs. split; [done|].
  split; [cbn; by rewrite Hlrs|].
  intros [|i] r' Hr'.
  - injection Hr' as <-. rewrite Hst. unfold missing_fields. rewrite <- Hlen.
    cbn [length]. split; [lia|]. rewrite Hc. split.
    + by intros ->.
    + intros [= H0]. symmetry in H0. by apply length_zero_iff_nil in H0.
  - destruct (Hall i r' Hr') as [H1 H2]. cbn [length]. split; [exact H1|].
    rewrite H2. lia.
Qed.

Lemma interview_completes_witness :
  let st : gmap str str :=
    list_to_map
      [ (py "full_name", py "Alice Smith"); (py "phone", py "5551234567");
        (py "id_number", py "X123"); (py "purpose", py "Meeting") ] in
  let inputs := [py "alice@example.com"; py "bob@example.com"] in
  (Forall (fun user_input => strip user_input <> []) inputs
   /\ length inputs = length (missing_fields st))
  /\ exists rs,
      interview (py "text") st inputs = Ok <$> rs
      /\ length rs = length inputs
      /\ forall i r, rs !! i = Some r ->
           length (missing_fields (StepResponse.conversation_state r))
           = (length inputs - S i)%nat
           /\ (StepResponse.is_complete r = true <-> S i = length inputs).
Proof.
  cbv zeta.
  assert (Forall (fun user_input => strip user_input <> [])
            [py "alice@example.com"; py "bob@example.com"]) as H1
    by (repeat constructor; discriminate).
  split; [split; [exact H1 | reflexivity]|].
  apply interview_completes; [exact H1 | reflexivity].
Defined.

(** X19: the step reads nothing but which of the six fields are
    answered. Two states that agree, field by field, on whether each of
    the six has a non-empty answer get the same next field, prompt,
    completion flag and errors for the same input, whatever else the
    states hold and whatever the input mode; and they fail alike. *)
Theorem step_reads_answered_only (st1 st2 : gmap str str) (inp mode1 mode2 : str) :
  Forall (fun fp => opt_bool (st1 !! fp.1) = opt_bool (st2 !! fp.1))
    expected_fields_order ->
  match visitor_checkin_step (StepRequest.mk st1 inp mode1),
        visitor_checkin_step (StepRequest.mk st2 inp mode2) with
  | Ok r1, Ok r2 =>
    StepResponse.next_field r1 = StepResponse.next_field r2
    /\ StepResponse.next_prompt r1 = StepResponse.next_prompt r2
    /\ StepResponse.is_complete r1 = StepResponse.is_complete r2
    /\ StepResponse.errors r1 = StepResponse.errors r2
  | Raise e1, Raise e2 => e1 = e2
  | _, _ => False
  end.
Proof.
  intros Hagree. pose proof (first_missing_agree _ _ _ Hagree) as Hfm.
  destruct (step_cases st1 inp mode1)
    as [[Hf1 ->] | [(f & p & Hf1 & Hraw & ->) | (f & p & Hf1 & Hraw & _ & ->)]];
    rewrite Hfm in Hf1.
  - by rewrite (step_done_raises st2 inp mode2 Hf1).
  - by rewrite (step_no_input_ok st2 inp mode2 f p Hf1 Hraw).
  - rewrite (step_assign_eq st2 inp mode2 f p Hf1 Hraw). cbv zeta.
    assert (first_missing expected_fields_order (<[f:=strip inp]> st1)
            = first_missing expected_fields_order (<[f:=strip inp]> st2)) as ->.
    { apply first_missing_agree. eapply Forall_impl; [exact Hagree|].
      intros [g q] Hg. cbn [fst] in *. by rewrite !opt_bool_insert, Hg. }
    by destruct (first_missing _ (<[f:=strip inp]> st2)) as [[g q]|].
Qed.

Lemma step_reads_answered_only_witness :
  let st1 : gmap str str := {[ py "full_name" := py "Alice Smith" ]} in
  let st2 : gmap str str :=
    list_to_map
      [ (py "full_name", py "Bob"); (py "email", []); (py "badge", py "7") ] in
  let inp := py "not-an-email" in
  Forall (fun fp => opt_bool (st1 !! fp.1) = opt_bool (st2 !! fp.1))
    expected_fields_order
  /\ match visitor_checkin_step (StepRequest.mk st1 inp (py "text")),
           visitor_checkin_step (StepRequest.mk st2 inp (py "voice")) with
     | Ok r1, Ok r2 =>
       StepResponse.next_field r1 = StepResponse.next_field r2
       /\ StepResponse.next_prompt r1 = StepResponse.next_prompt r2
       /\ StepResponse.is_complete r1 = StepResponse.is_complete r2
       /\ StepResponse.errors r1 = StepResponse.errors r2
     | Raise e1, Raise e2 => e1 = e2
     | _, _ => False
     end.
Proof.
  cbv zeta.
  assert (Forall (fun fp : str * str =>
                    opt_bool (({[ py "full_name" := py "Alice Smith" ]}
                               : gmap str str) !! fp.1)
                    = opt_bool ((list_to_map
                                   [ (py "full_name", py "Bob"); (py "email", []);
                                     (py "badge", py "7") ] : gmap str str) !! fp.1))
            expected_fields_order) as H by (repeat constructor).
  split; [exact H|].
  exact (step_reads_answered_only _ _ (py "not-an-email") (py "text") (py "voice") H).
Defined.
